(** * etherscan-cache: a caching front for explorer APIs, and the
      constructor-argument resolver

    Shallow embedding of [app.py] and [constructor_args.py].

    The program is a web service.  Its handlers mutate process-wide state
    (a disk cache, a one-hour TTL cache, one key iterator per explorer, a
    table of locks) and talk to the network.  Here a handler is a function
    from the state of the process to an outcome (a value or a raised
    exception) and a new state; the network is a tape of replies that the
    handler consumes, and every request that is sent is logged. *)

From Stdlib Require Import ZArith String Ascii List Lia.
From stdpp Require Import base option list gmap strings pretty.

Set Warnings "-register-all".

Local Open Scope string_scope.

(** ** Python values

    What [resp.json()] returns and what the handlers pass around: [None],
    booleans, integers, strings, lists and dictionaries.  A dictionary is
    kept as the list of its items (a parsed JSON object has no duplicate
    keys; a lookup takes the first item with the key).  JSON numbers with a
    fraction are left out: no handler computes on numbers. *)

Inductive json : Type :=
| JNull
| JBool (b : bool)
| JInt (z : Z)
| JStr (s : string)
| JArr (l : list json)
| JObj (fields : list (string * json)).

(** The exceptions that can travel through the handlers.  [HTTPException]
    and its subclass [ContractNotVerified] carry a status code and a detail;
    the others are Python's own or those of [requests].  [Blocked] is not an
    exception: it marks a thread that waits for a lock that is never
    released, and nothing catches it. *)

Inductive exn : Type :=
| HTTPException (status_code : Z) (detail : string)
| ContractNotVerified (status_code : Z) (detail : string)
| NotImplementedError (arg : string)
| KeyError
| IndexError
| TypeError
| AttributeError
| UnboundLocalError
| StopIteration
| HTTPError (status_code : Z)
| ConnectionError
| JSONDecodeError
| Blocked.

Inductive outcome (A : Type) : Type :=
| Return (a : A)
| Raise (e : exn).
Arguments Return {A} a.
Arguments Raise {A} e.

Definition obind {A B} (x : outcome A) (f : A -> outcome B) : outcome B :=
  match x with
  | Return a => f a
  | Raise e => Raise e
  end.

(** *** Truth value, [len], subscripts *)

Definition truthy (v : json) : bool :=
  match v with
  | JNull => false
  | JBool b => b
  | JInt z => negb (Z.eqb z 0)
  | JStr s => negb (String.eqb s "")
  | JArr l => match l with [] => false | _ => true end
  | JObj f => match f with [] => false | _ => true end
  end.

Fixpoint dict_get (k : string) (fields : list (string * json)) : option json :=
  match fields with
  | [] => None
  | (k', v) :: rest => if String.eqb k' k then Some v else dict_get k rest
  end.

(** [v == s] for a string literal [s]. *)
Definition py_eq_str (v : json) (s : string) : bool :=
  match v with
  | JStr t => String.eqb t s
  | _ => false
  end.

(** [v[k]] for a string key [k]. *)
Definition py_getitem (v : json) (k : string) : outcome json :=
  match v with
  | JObj f => match dict_get k f with
              | Some x => Return x
              | None => Raise KeyError
              end
  | _ => Raise TypeError
  end.

(** [v[0]]. *)
Definition py_getitem0 (v : json) : outcome json :=
  match v with
  | JArr (x :: _) => Return x
  | JArr [] => Raise IndexError
  | JStr (String c _) => Return (JStr (String c ""))
  | JStr "" => Raise IndexError
  | JObj _ => Raise KeyError
  | _ => Raise TypeError
  end.

(** [v.get(k)]: only dictionaries have the method. *)
Definition py_get (v : json) (k : string) : outcome json :=
  match v with
  | JObj f => Return (default JNull (dict_get k f))
  | _ => Raise AttributeError
  end.

(** [len(v)]. *)
Definition py_len (v : json) : outcome Z :=
  match v with
  | JStr s => Return (Z.of_nat (String.length s))
  | JArr l => Return (Z.of_nat (length l))
  | JObj f => Return (Z.of_nat (length f))
  | _ => Raise TypeError
  end.

Fixpoint str_prefix (p s : string) : bool :=
  match p, s with
  | "", _ => true
  | String a p', String b s' => Ascii.eqb a b && str_prefix p' s'
  | String _ _, "" => false
  end.

Fixpoint str_contains (p s : string) : bool :=
  str_prefix p s ||
  match s with
  | "" => false
  | String _ s' => str_contains p s'
  end.

(** [k in v] for a string [k]. *)
Definition py_in (k : string) (v : json) : outcome bool :=
  match v with
  | JObj f => Return (bool_decide (is_Some (dict_get k f)))
  | JArr l => Return (existsb (fun x => py_eq_str x k) l)
  | JStr s => Return (str_contains k s)
  | _ => Raise TypeError
  end.

(** *** Slices

    [s[-n:]] with [n > 0] starts at [max (len s - n) 0]. *)

Fixpoint str_drop (n : nat) (s : string) : string :=
  match n, s with
  | O, _ => s
  | S _, "" => ""
  | S n', String _ s' => str_drop n' s'
  end.

Fixpoint str_take (n : nat) (s : string) : string :=
  match n, s with
  | O, _ => ""
  | S _, "" => ""
  | S n', String c s' => String c (str_take n' s')
  end.

Definition py_slice_last (v : json) (n : Z) : outcome json :=
  match v with
  | JStr s => Return (JStr (str_drop (String.length s - Z.to_nat n) s))
  | JArr l => Return (JArr (drop (length l - Z.to_nat n) l))
  | _ => Raise TypeError
  end.

(** *** [str()] of a value, for the f-strings of the error details.
    Exact on [None], booleans, integers and strings; inside a list or a
    dictionary a string is quoted without escapes. *)

Fixpoint py_repr (v : json) : string :=
  match v with
  | JNull => "None"
  | JBool true => "True"
  | JBool false => "False"
  | JInt z => pretty z
  | JStr s => "'" +:+ s +:+ "'"
  | JArr l => "[" +:+ String.concat ", " (map py_repr l) +:+ "]"
  | JObj f =>
      "{" +:+ String.concat ", "
                (map (fun kv => "'" +:+ fst kv +:+ "': " +:+ py_repr (snd kv)) f)
          +:+ "}"
  end.

Definition py_str (v : json) : string :=
  match v with
  | JStr s => s
  | _ => py_repr v
  end.

(** ** The state of the process and its surroundings *)

(** The arguments of one upstream query: explorer, module, action, address.
    [cache.memoize] and [__cache_key__] put the function's name in front;
    with the four of them that is the tuple whose components 1 and 4
    [invalidate] reads. *)
Abbreviation CacheKey := (string * string * string * string)%type.

Definition key_explorer (k : CacheKey) : string := k.1.1.1.
Definition key_module (k : CacheKey) : string := k.1.1.2.
Definition key_action (k : CacheKey) : string := k.1.2.
Definition key_address (k : CacheKey) : string := k.2.

(** [config.toml]: per explorer a url, a list of keys and, optionally, an
    [rpc] table with a chain id and the url of a node. *)
Record rpc_config := { chain_id : Z; rpc_url : option string }.
Record explorer_config := {
  cfg_url : string;
  cfg_keys : list string;
  cfg_rpc : option rpc_config
}.

(** What the network answers: a status code and a body, which is [None]
    when it is not JSON. *)
Record response := { status : Z; body : option json }.

Inductive request : Type :=
| GET (url : string) (params headers : list (string * string))
| POST (url : string) (payload : json).

(** One step of the tape: the call takes [elapsed] seconds and then either
    yields a reply or fails to connect. *)
Inductive net_event : Type :=
| Reply (elapsed : nat) (r : response)
| Unreachable (elapsed : nat).

(** [itertools.cycle]: the iterator it still reads from (if any), the items
    saved so far, and the index into the saved items. *)
Record cycle := { cy_it : option (list string); cy_saved : list string; cy_index : nat }.

(** An entry of the TTL cache with the time at which it expires. *)
Record ttl_entry := { te_key : CacheKey; te_value : json; te_expires : nat }.

Record world := {
  cache : gmap CacheKey json;       (* the disk cache *)
  cache_hits : nat;                 (* its statistics *)
  cache_misses : nat;
  weak : list ttl_entry;            (* the TTL cache of [weak_cache], least recently used first *)
  keys : gmap string cycle;         (* one key iterator per explorer *)
  locks : gmap CacheKey bool;       (* [stampede]'s locks; [true] is held *)
  clock : nat;                      (* [time.monotonic()], in seconds *)
  net : list net_event;             (* what the network will answer *)
  sent : list request               (* the requests made so far, oldest first *)
}.

Definition with_cache (f : gmap CacheKey json -> gmap CacheKey json) (w : world) : world :=
  {| cache := f (cache w); cache_hits := cache_hits w; cache_misses := cache_misses w;
     weak := weak w; keys := keys w; locks := locks w; clock := clock w;
     net := net w; sent := sent w |}.

Definition with_stats (h m : nat) (w : world) : world :=
  {| cache := cache w; cache_hits := h; cache_misses := m;
     weak := weak w; keys := keys w; locks := locks w; clock := clock w;
     net := net w; sent := sent w |}.

Definition with_weak (c : list ttl_entry) (w : world) : world :=
  {| cache := cache w; cache_hits := cache_hits w; cache_misses := cache_misses w;
     weak := c; keys := keys w; locks := locks w; clock := clock w;
     net := net w; sent := sent w |}.

Definition with_keys (k : gmap string cycle) (w : world) : world :=
  {| cache := cache w; cache_hits := cache_hits w; cache_misses := cache_misses w;
     weak := weak w; keys := k; locks := locks w; clock := clock w;
     net := net w; sent := sent w |}.

Definition with_locks (l : gmap CacheKey bool) (w : world) : world :=
  {| cache := cache w; cache_hits := cache_hits w; cache_misses := cache_misses w;
     weak := weak w; keys := keys w; locks := l; clock := clock w;
     net := net w; sent := sent w |}.

Definition with_net (elapsed : nat) (rest : list net_event) (rq : request) (w : world) : world :=
  {| cache := cache w; cache_hits := cache_hits w; cache_misses := cache_misses w;
     weak := weak w; keys := keys w; locks := locks w; clock := clock w + elapsed;
     net := rest; sent := sent w ++ [rq] |}.

Definition with_clock (t : nat) (w : world) : world :=
  {| cache := cache w; cache_hits := cache_hits w; cache_misses := cache_misses w;
     weak := weak w; keys := keys w; locks := locks w; clock := t;
     net := net w; sent := sent w |}.

(** ** The monad of the handlers: state, and exceptions that keep the state *)

Definition M (A : Type) : Type := world -> outcome A * world.

Definition ret {A} (a : A) : M A := fun w => (Return a, w).
Definition raise {A} (e : exn) : M A := fun w => (Raise e, w).
Definition bind {A B} (m : M A) (f : A -> M B) : M B :=
  fun w => match m w with
           | (Return a, w') => f a w'
           | (Raise e, w') => (Raise e, w')
           end.
Definition lift {A} (x : outcome A) : M A := fun w => (x, w).

Declare Scope py_scope.
Delimit Scope py_scope with py.
Notation "x <- m ;; k" := (bind m (fun x => k))
  (at level 100, m at next level, k at level 200, right associativity) : py_scope.
Notation "m ;;; k" := (bind m (fun _ => k))
  (at level 100, k at level 200, right associativity) : py_scope.
Local Open Scope py_scope.

(** [try: m except ContractNotVerified: h]. *)
Definition except_ContractNotVerified {A} (m h : M A) : M A :=
  fun w => match m w with
           | (Raise (ContractNotVerified _ _), w') => h w'
           | r => r
           end.

(** ** The network *)

(** Every call moves the tape by one step; an exhausted tape is a network
    that cannot be reached. *)
Definition send (rq : request) : M response :=
  fun w => match net w with
           | [] => (Raise ConnectionError, with_net 0 [] rq w)
           | Unreachable d :: rest => (Raise ConnectionError, with_net d rest rq w)
           | Reply d r :: rest => (Return r, with_net d rest rq w)
           end.

(** [resp.raise_for_status()]: client and server errors raise. *)
Definition raise_for_status (r : response) : M unit :=
  if ((400 <=? status r) && (status r <? 600))%Z
  then raise (HTTPError (status r))
  else ret tt.

(** [resp.json()]. *)
Definition response_json (r : response) : M json :=
  match body r with
  | Some v => ret v
  | None => raise JSONDecodeError
  end.

(** ** The key rotator: [next] on [itertools.cycle] *)

Definition cycle_new (l : list string) : cycle :=
  {| cy_it := Some l; cy_saved := []; cy_index := 0 |}.

Definition cycle_replay (c : cycle) : option (string * cycle) :=
  match cy_saved c !! cy_index c with
  | None => None
  | Some x =>
      let i := S (cy_index c) in
      Some (x, {| cy_it := None; cy_saved := cy_saved c;
                  cy_index := if (length (cy_saved c) <=? i)%nat then 0 else i |})
  end.

(** [None] is [StopIteration]. *)
Definition cycle_next (c : cycle) : option (string * cycle) :=
  match cy_it c with
  | Some (x :: rest) =>
      Some (x, {| cy_it := Some rest; cy_saved := cy_saved c ++ [x]; cy_index := cy_index c |})
  | _ => cycle_replay c
  end.

(** [next(keys[explorer])]. *)
Definition next_key (explorer : string) : M string :=
  fun w => match keys w !! explorer with
           | None => (Raise KeyError, w)
           | Some c => match cycle_next c with
                       | None => (Raise StopIteration, w)
                       | Some (k, c') => (Return k, with_keys (<[explorer := c']> (keys w)) w)
                       end
           end.

(** ** The TTL cache behind [weak_cache]

    [cachetools.func.ttl_cache(ttl=60*60)]: at most [maxsize] entries (128
    unless told otherwise), each alive for [ttl] seconds after it is stored;
    the list is kept least recently used first. *)

Definition ttl : nat := 60 * 60.
Definition maxsize : nat := 128.

Definition ttl_find (k : CacheKey) (c : list ttl_entry) : option ttl_entry :=
  List.find (fun e => bool_decide (te_key e = k)) c.

Definition ttl_remove (k : CacheKey) (c : list ttl_entry) : list ttl_entry :=
  List.filter (fun e => negb (bool_decide (te_key e = k))) c.

Definition ttl_expire (now : nat) (c : list ttl_entry) : list ttl_entry :=
  List.filter (fun e => now <? te_expires e)%nat c.

(** [k in cache]. *)
Definition ttl_contains (k : CacheKey) : M bool :=
  fun w => (Return match ttl_find k (weak w) with
                   | Some e => (clock w <? te_expires e)%nat
                   | None => false
                   end, w).

(** [cache[k]], with [None] for [KeyError]: the entry, if there is one, becomes
    the most recently used, and counts only while it has not expired. *)
Definition ttl_getitem (k : CacheKey) : M (option json) :=
  fun w => match ttl_find k (weak w) with
           | None => (Return None, w)
           | Some e =>
               (Return (if (clock w <? te_expires e)%nat then Some (te_value e) else None),
                with_weak (ttl_remove k (weak w) ++ [e]) w)
           end.

(** [cache[k] = v]: expired entries go first, then the least recently used
    ones while the cache is full. *)
Definition ttl_setitem (k : CacheKey) (v : json) : M unit :=
  fun w =>
    let live := ttl_expire (clock w) (weak w) in
    let room := match ttl_find k live with
                | Some _ => live
                | None => drop (length live + 1 - maxsize) live
                end in
    (Return tt,
     with_weak (ttl_remove k room ++
                  [{| te_key := k; te_value := v; te_expires := clock w + ttl |}]) w).

(** [cache.setdefault(k, v)]. *)
Definition ttl_setdefault (k : CacheKey) (v : json) : M json :=
  present <- ttl_contains k ;;
  if present : bool then
    o <- ttl_getitem k ;;
    match o with Some x => ret x | None => raise KeyError end
  else
    ttl_setitem k v ;;; ret v.

(** The decorator: a hit answers from the cache, a miss runs the function
    and stores what it returns; an exception stores nothing. *)
Definition ttl_cache (k : CacheKey) (f : M json) : M json :=
  hit <- ttl_getitem k ;;
  match hit with
  | Some v => ret v
  | None => v <- f ;; ttl_setdefault k v
  end.

(** ** The disk cache

    [diskcache.Cache] with statistics.  Entries have no expiry; culling at
    the size limit is the store's business and is not modelled. *)

Definition cache_get (k : CacheKey) : M (option json) :=
  fun w => match cache w !! k with
           | Some v => (Return (Some v), with_stats (S (cache_hits w)) (cache_misses w) w)
           | None => (Return None, with_stats (cache_hits w) (S (cache_misses w)) w)
           end.

Definition cache_set (k : CacheKey) (v : json) : M unit :=
  fun w => (Return tt, with_cache (insert k v) w).

(** [cache.delete(k)] tells whether there was something to delete. *)
Definition cache_delete (k : CacheKey) : M bool :=
  fun w => (Return (bool_decide (is_Some (cache w !! k))), with_cache (delete k) w).

Definition cache_iterkeys : M (list CacheKey) :=
  fun w => (Return (map fst (map_to_list (cache w))), w).

(** [@cache.memoize()]: look the key up; on a miss call the function and
    store its result.  When the function raises nothing is stored. *)
Definition memoize (k : CacheKey) (f : M json) : M json :=
  r <- cache_get k ;;
  match r with
  | Some v => ret v
  | None => v <- f ;; cache_set k v ;;; ret v
  end.

(** ** [stampede]

    [with locks[key]: return f(...)]: the lock of the key is created on
    first use, taken, and released however [f] ends. *)
Definition acquire (k : CacheKey) (w : world) : world :=
  with_locks (<[k := true]> (locks w)) w.

Definition release (k : CacheKey) (w : world) : world :=
  with_locks (<[k := false]> (locks w)) w.

Definition stampede {A} (k : CacheKey) (f : M A) : M A :=
  fun w =>
    if default false (locks w !! k) then (Raise Blocked, w)
    else
      let (r, w') := f (acquire k w) in
      (r, release k w').

(** A loop [for x in l] that updates an accumulator. *)
Fixpoint for_each {A B} (l : list A) (acc : B) (body : B -> A -> M B) : M B :=
  match l with
  | [] => ret acc
  | x :: rest => acc' <- body acc x ;; for_each rest acc' body
  end.

(** ** constructor_args.py *)

Definition rpc_payload (method : string) (param : json) : json :=
  JObj [("jsonrpc", JStr "2.0"); ("id", JInt 1);
        ("method", JStr method); ("params", JArr [param])].

Definition get_creation_tx (address url : string) : M json :=
  res <- send (POST url (rpc_payload "ots_getContractCreator" (JStr address))) ;;
  if negb (status res =? 200)%Z then ret JNull
  else
    results <- response_json res ;;
    r <- lift (py_getitem results "result") ;;
    lift (py_getitem r "hash").

Definition get_creation_code (tx : json) (url : string) : M json :=
  res <- send (POST url (rpc_payload "eth_getTransactionByHash" tx)) ;;
  if negb (status res =? 200)%Z then ret JNull
  else
    results <- response_json res ;;
    r <- lift (py_getitem results "result") ;;
    lift (py_getitem r "input").

(** The truth value of an optional string argument. *)
Definition opt_truthy (o : option string) : bool :=
  match o with
  | Some s => negb (String.eqb s "")
  | None => false
  end.

Definition do_on_chain_lookup (explorer : string) (rpc_url : option string)
    (address : string) (creation_tx_hash : json) (bytecode : option string) : M json :=
  if negb (opt_truthy rpc_url) then
    raise (HTTPException 404 ("no rpc configured for explorer " +:+ explorer))
  else if negb (opt_truthy bytecode) then
    raise (HTTPException 400 ("no bytecode provided for address " +:+ address))
  else
    let url := default "" rpc_url in
    creation_tx_hash <-
      (if negb (truthy creation_tx_hash) && opt_truthy rpc_url
       then get_creation_tx address url
       else ret creation_tx_hash) ;;
    if negb (truthy creation_tx_hash) then
      raise (HTTPException 404 ("creation tx not found for address " +:+ address))
    else
      creation_code <- get_creation_code creation_tx_hash url ;;
      if negb (truthy creation_code) then
        raise (HTTPException 404
                 ("creation code not found for tx " +:+ py_str creation_tx_hash))
      else
        n <- lift (py_len creation_code) ;;
        let length := (n - Z.of_nat (String.length (default "" bytecode)))%Z in
        if (0 <? length)%Z
        then lift (py_slice_last creation_code length)
        else ret (JStr "").

(** ** app.py *)

(** Lines 73 to 78 of [get_from_upstream]: the value of [is_verified], or
    the exception raised while it is computed. *)
Definition is_verified (action : string) (resp : json) : outcome bool :=
  if String.eqb action "getsourcecode" then
    obind (py_getitem resp "result") (fun result =>
    obind (py_getitem0 result) (fun first =>
    obind (py_get first "SourceCode") (fun source =>
    Return (truthy source))))
  else if String.eqb action "getabi" then
    obind (py_getitem resp "result") (fun result =>
    Return (negb (py_eq_str result "Contract source code not verified")))
  else Raise (NotImplementedError action).

Fixpoint assoc {A} (k : string) (l : list (string * A)) : option A :=
  match l with
  | [] => None
  | (k', v) :: rest => if String.eqb k' k then Some v else assoc k rest
  end.

Section App.

(** [config.toml], in the order of the file, and [eth_utils]'
    [to_checksum_address] ([None] for [ValueError]). *)
Variable config : list (string * explorer_config).
Variable to_checksum_address : string -> option string.

(** [keys], [CHAINS] and [RPC_URLS] as the module builds them on import. *)
Definition initial_keys : gmap string cycle :=
  list_to_map (map (fun ec => (ec.1, cycle_new (cfg_keys ec.2))) config).

Definition CHAINS : gmap string Z :=
  foldl (fun m ec => match cfg_rpc ec.2 with
                     | None => m
                     | Some r => <[ec.1 := chain_id r]> m
                     end) ∅ config.

Definition RPC_URLS : gmap Z (option string) :=
  foldl (fun m ec => match cfg_rpc ec.2 with
                     | None => m
                     | Some r => <[chain_id r := rpc_url r]> m
                     end) ∅ config.

(** The process right after start, facing the network [tape]. *)
Definition initial (tape : list net_event) : world :=
  {| cache := ∅; cache_hits := 0; cache_misses := 0; weak := [];
     keys := initial_keys; locks := ∅; clock := 0; net := tape; sent := [] |}.

(** The body of [weak_cache]: the url is read from the configuration, the
    next key is taken, the request is sent.  The [print] to standard output
    is not part of the state. *)
Definition fetch (explorer module action address : string) : M json :=
  match assoc explorer config with
  | None => raise KeyError
  | Some cfg =>
      apiKey <- next_key explorer ;;
      resp <- send (GET (cfg_url cfg)
                      [("module", module); ("action", action);
                       ("address", address); ("apiKey", apiKey)]
                      [("User-Agent", "Mozilla/5.0")]) ;;
      raise_for_status resp ;;;
      response_json resp
  end.

Definition weak_cache (explorer module action address : string) : M json :=
  ttl_cache (explorer, module, action, address)
    (fetch explorer module action address).

(** The undecorated body of [get_from_upstream]. *)
Definition verified_fetch (explorer module action address : string) : M json :=
  resp <- weak_cache explorer module action address ;;
  is_verified <- lift (is_verified action resp) ;;
  if negb is_verified
  then raise (ContractNotVerified 404 "contract source code not verified")
  else ret resp.

Definition get_from_upstream (explorer module action address : string) : M json :=
  stampede (explorer, module, action, address)
    (memoize (explorer, module, action, address)
       (verified_fetch explorer module action address)).

Definition cached_api (explorer module action address : string) : M json :=
  if negb (bool_decide (is_Some (assoc explorer config))) then
    raise (HTTPException 400 "explorer not supported")
  else if negb (bool_decide (module ∈ ["contract"])) then
    raise (HTTPException 400 "module not supported")
  else if negb (bool_decide (action ∈ ["getsourcecode"; "getabi"])) then
    raise (HTTPException 400 "action not supported")
  else
    match to_checksum_address address with
    | None => raise (HTTPException 400 "invalid address")
    | Some address =>
        except_ContractNotVerified
          (get_from_upstream explorer module action address)
          (weak_cache explorer module action address)
    end.

Definition invalidate (explorer address : string) : M json :=
  ks <- cache_iterkeys ;;
  deleted <- for_each ks 0%Z (fun deleted key =>
    if bool_decide ((key_explorer key, key_address key) = (explorer, address))
    then b <- cache_delete key ;; ret (deleted + Z.b2z b)%Z
    else ret deleted) ;;
  ret (JObj [("deleted", JInt deleted)]).

(** The endpoint [constructor_args].  [args] is a local variable that is
    bound only on some paths: [None] is the unbound variable. *)
Definition explorer_args (res : json) : M (option json) :=
  message <- lift (py_getitem res "message") ;;
  has_result <- (if py_eq_str message "OK" then lift (py_in "result" res) else ret false) ;;
  if has_result : bool then
    results <- lift (py_getitem res "result") ;;
    n <- lift (py_len results) ;;
    if (0 <? n)%Z then
      first <- lift (py_getitem0 results) ;;
      args <- lift (py_getitem first "ConstructorArguments") ;;
      ret (Some args)
    else ret None
  else ret None.

Definition constructor_args (explorer address : string) (on_chain_lookup : bool)
    (creation_tx_hash bytecode : option string) : M json :=
  match to_checksum_address address with
  | None => raise (HTTPException 400 "invalid address")
  | Some address =>
      let tx := from_option JStr JNull creation_tx_hash in
      rpc_url <-
        match CHAINS !! explorer with
        | None => ret None
        | Some chain_id =>
            match RPC_URLS !! chain_id with
            | None =>
                raise (HTTPException 404 ("no rpc configured for explorer " +:+ explorer))
            | Some None =>
                raise (HTTPException 404 ("no rpc configured for explorer " +:+ explorer))
            | Some (Some url) => ret (Some url)
            end
        end ;;
      if on_chain_lookup then
        args <- do_on_chain_lookup explorer rpc_url address tx bytecode ;;
        ret (JObj [("address", JStr address); ("constructor_args", args)])
      else
        res <- except_ContractNotVerified
                 (get_from_upstream explorer "contract" "getsourcecode" address)
                 (weak_cache explorer "contract" "getsourcecode" address) ;;
        args <- explorer_args res ;;
        match args with
        | None => raise UnboundLocalError
        | Some args =>
            args <- (if negb (truthy args)
                     then do_on_chain_lookup explorer rpc_url address tx bytecode
                     else ret args) ;;
            ret (JObj [("address", JStr address); ("constructor_args", args)])
        end
  end.

End App.

(** ** Runs of the service *)

(** [n] calls in a row, with their results in order. *)
Fixpoint repeat_call {A} (n : nat) (m : M A) : M (list A) :=
  match n with
  | O => ret []
  | S n' => x <- m ;; rest <- repeat_call n' m ;; ret (x :: rest)
  end.

(** What can happen to the process: a request to one of its endpoints, or
    time that passes. *)
Inductive event : Type :=
| CachedApi (explorer module action address : string)
| Invalidate (explorer address : string)
| ConstructorArgs (explorer address : string) (on_chain_lookup : bool)
    (creation_tx_hash bytecode : option string)
| Sleep (seconds : nat).

Section Runs.

Variable config : list (string * explorer_config).
Variable to_checksum_address : string -> option string.

Definition handle (ev : event) : M json :=
  match ev with
  | CachedApi e m a addr => cached_api config to_checksum_address e m a addr
  | Invalidate e addr => invalidate e addr
  | ConstructorArgs e addr o tx bc =>
      constructor_args config to_checksum_address e addr o tx bc
  | Sleep d => fun w => (Return JNull, with_clock (clock w + d) w)
  end.

(** The state after a list of events; what a handler answers or raises
    does not stop the service. *)
Definition run (evs : list event) (w : world) : world :=
  foldl (fun w ev => (handle ev w).2) w evs.

Definition reachable (w : world) : Prop :=
  exists tape evs, w = run evs (initial config tape).

End Runs.

(** ** Sample data for the examples *)

Definition sample_config : list (string * explorer_config) :=
  [("etherscan",
    {| cfg_url := "https://api.etherscan.io/api";
       cfg_keys := ["k1"; "k2"; "k3"];
       cfg_rpc := Some {| chain_id := 1; rpc_url := Some "http://localhost:8545" |} |});
   ("ftmscan",
    {| cfg_url := "https://api.ftmscan.com/api";
       cfg_keys := ["f1"];
       cfg_rpc := None |})].

(** [to_checksum_address] on a few addresses of EIP-55's test vectors (in
    lower case and in checksummed form); [None] elsewhere. *)
Definition eip55_sample (a : string) : option string :=
  if String.eqb a "0x5aaeb6053f3e94c9b9a09f33669435e7ef1beaed"
     || String.eqb a "0x5aAeb6053F3E94C9b9A09f33669435E7Ef1BeAed"
  then Some "0x5aAeb6053F3E94C9b9A09f33669435E7Ef1BeAed"
  else if String.eqb a "0x52908400098527886e0f7030069857d2e4169ee7"
          || String.eqb a "0x52908400098527886E0F7030069857D2E4169EE7"
  then Some "0x52908400098527886E0F7030069857D2E4169EE7"
  else if String.eqb a "0xde709f2102306220921060314715629080e2fb77"
  then Some "0xde709f2102306220921060314715629080e2fb77"
  else None.

Definition ok (elapsed : nat) (v : json) : net_event :=
  Reply elapsed {| status := 200; body := Some v |}.

(** An explorer's answer for a verified and for an unverified contract. *)
Definition verified_source : json :=
  JObj [("status", JStr "1"); ("message", JStr "OK");
        ("result", JArr [JObj [("SourceCode", JStr "contract C {}");
                               ("ConstructorArguments", JStr "00ab")]])].

Definition unverified_source : json :=
  JObj [("status", JStr "1"); ("message", JStr "OK");
        ("result", JArr [JObj [("SourceCode", JStr "");
                               ("ConstructorArguments", JStr "")]])].

(** A node's answer that carries the input of a transaction. *)
Definition creation_tx_reply (input : json) : net_event :=
  ok 1 (JObj [("jsonrpc", JStr "2.0"); ("id", JInt 1);
              ("result", JObj [("hash", JStr "0x01"); ("input", input)])]).

(** ** Vocabulary of the statements *)

(** Where an iterator over [ks] stands after [p] calls of [next]. *)
Definition cycle_at (ks : list string) (p : nat) (c : cycle) : Prop :=
  if decide (p < length ks)
  then cy_it c = Some (drop p ks) /\ cy_saved c = take p ks /\ cy_index c = 0
  else (cy_it c = Some [] \/ cy_it c = None) /\ cy_saved c = ks
       /\ cy_index c = p mod length ks.

(** No lock is held: the state between two requests of a sequential run. *)
Definition lock_free (w : world) : Prop :=
  forall k, locks w !! k <> Some true.

(** Every entry of the disk cache passes the verification of its action. *)
Definition verified_only (w : world) : Prop :=
  forall k v, cache w !! k = Some v -> is_verified (key_action k) v = Return true.

(** Every key of the disk cache holds an address that [to_checksum_address]
    produced. *)
Definition canonical_keys (to_checksum_address : string -> option string)
    (w : world) : Prop :=
  forall k v, cache w !! k = Some v ->
    exists a, to_checksum_address a = Some (key_address k).

(** A computation that leaves the disk cache, its statistics and the locks
    as they are. *)
Definition quiet {A} (m : M A) : Prop :=
  forall w r w', m w = (r, w') ->
    cache w' = cache w /\ locks w' = locks w
    /\ cache_hits w' = cache_hits w /\ cache_misses w' = cache_misses w.

(** A computation that sends at most one request. *)
Definition one_request {A} (m : M A) : Prop :=
  forall w r w', m w = (r, w') ->
    sent w' = sent w \/ exists rq : request, sent w' = (sent w ++ [rq])%list.

(** The TTL cache holds a live entry with value [v] under [k]. *)
Definition live (k : CacheKey) (v : json) (w : world) : Prop :=
  exists e, ttl_find k (weak w) = Some e /\ te_value e = v
            /\ clock w < te_expires e.

(** What holds of the process between two requests. *)
Definition invariant (to_checksum_address : string -> option string)
    (w : world) : Prop :=
  lock_free w /\ verified_only w /\ canonical_keys to_checksum_address w.


(** * Properties *)

(** ** The key rotator *)

Lemma cycle_at_new ks : ks <> [] -> cycle_at ks 0 (cycle_new ks).
Proof.
  intros Hne. unfold cycle_at. destruct ks as [|k ks]; [done|].
  rewrite decide_True by (simpl; lia). by rewrite drop_0.
Qed.

Lemma cycle_next_at ks p c :
  ks <> [] -> cycle_at ks p c ->
  exists x c', cycle_next c = Some (x, c')
               /\ ks !! (p mod length ks) = Some x
               /\ cycle_at ks (S p) c'.
Proof.
  intros Hne Hat. unfold cycle_at in Hat.
  assert (Hlen : 0 < length ks) by (destruct ks; [done | simpl; lia]).
  destruct (decide (p < length ks)) as [Hp | Hp].
  - destruct Hat as (Hit & Hsaved & Hidx).
    destruct (lookup_lt_is_Some_2 ks p Hp) as [x Hx].
    exists x. eexists. unfold cycle_next. rewrite Hit.
    rewrite (drop_S _ _ _ Hx). split; [reflexivity|].
    rewrite Nat.mod_small by done. split; [done|].
    unfold cycle_at; simpl. destruct (decide (S p < length ks)) as [Hs | Hs].
    + rewrite Hsaved, Hidx. by rewrite (take_S_r _ _ _ Hx).
    + assert (S p = length ks) as Heq by lia.
      rewrite Hsaved, Hidx, <- (take_S_r _ _ _ Hx), Heq.
      rewrite drop_all, firstn_all, Nat.Div0.mod_same. auto.
  - destruct Hat as (Hit & Hsaved & Hidx).
    assert (Hi : p mod length ks < length ks) by (apply Nat.mod_upper_bound; lia).
    destruct (lookup_lt_is_Some_2 ks _ Hi) as [x Hx].
    exists x. eexists.
    assert (Hnext : cycle_next c = cycle_replay c).
    { unfold cycle_next. by destruct Hit as [-> | ->]. }
    rewrite Hnext. unfold cycle_replay. rewrite Hsaved, Hidx, Hx.
    split; [reflexivity|]. split; [done|].
    unfold cycle_at; simpl. rewrite decide_False by lia.
    split; [auto|]. split; [done|].
    destruct (length ks <=? S (p mod length ks))%nat eqn:Hle.
    + apply Nat.leb_le in Hle.
      assert (Hs : S (p mod length ks) = length ks) by lia.
      replace (S p) with (1 + p) by lia.
      rewrite <- Nat.Div0.add_mod_idemp_r.
      replace (1 + p mod length ks) with (length ks) by lia.
      by rewrite Nat.Div0.mod_same.
    + apply Nat.leb_gt in Hle.
      replace (S p) with (1 + p) by lia.
      rewrite <- Nat.Div0.add_mod_idemp_r.
      rewrite (Nat.mod_small (1 + _)) by lia. done.
Qed.

Lemma assoc_Some {A} k (l : list (string * A)) v :
  assoc k l = Some v -> (k, v) ∈ l.
Proof.
  induction l as [|[k' v'] l IH]; simpl; [done|].
  destruct (String.eqb_spec k' k) as [-> | Hne].
  - intros [= ->]. apply list_elem_of_here.
  - intros H. apply list_elem_of_further; auto.
Qed.

Lemma initial_keys_lookup config e :
  initial_keys config !! e = (fun c => cycle_new (cfg_keys c)) <$> assoc e config.
Proof.
  unfold initial_keys. induction config as [|[k c] config IH]; simpl; [done|].
  destruct (String.eqb_spec k e) as [-> | Hne].
  - by rewrite lookup_insert_eq.
  - by rewrite lookup_insert_ne.
Qed.

Lemma repeat_next_key e ks n : forall p w c,
  ks <> [] -> keys w !! e = Some c -> cycle_at ks p c ->
  exists out w',
    repeat_call n (next_key e) w = (Return out, w')
    /\ length out = n
    /\ (forall i, i < n -> out !! i = ks !! ((p + i) mod length ks))
    /\ cache w' = cache w /\ weak w' = weak w /\ sent w' = sent w.
Proof.
  induction n as [|n IH]; intros p w c Hne Hk Hat.
  - exists [], w. repeat split; try done. intros i Hi; lia.
  - destruct (cycle_next_at ks p c Hne Hat) as (x & c' & Hnext & Hx & Hat').
    set (w1 := with_keys (<[e := c']> (keys w)) w).
    destruct (IH (S p) w1 c' Hne) as (out & w' & Hrun & Hlen & Hout & Hc & Hw & Hs).
    { unfold w1; simpl. by rewrite lookup_insert_eq. }
    { done. }
    exists (x :: out), w'. split.
    { simpl. unfold bind at 1. unfold next_key at 1. rewrite Hk, Hnext.
      fold w1. unfold bind at 1. rewrite Hrun. reflexivity. }
    split; [simpl; lia|]. split; [|done].
    intros [|i] Hi; simpl.
    + by rewrite Nat.add_0_r.
    + rewrite Hout by lia. f_equal. f_equal. lia.
Qed.

(** C9.  For an explorer configured with a non-empty list of keys, [n]
    calls of the rotator in a row, starting with the fresh process, return
    [n] keys, and the call number [i + 1] returns the key at index
    [i mod length] of the list: round robin, wrapping for ever. *)
Theorem key_rotation_round_robin config tape explorer cfg n :
  assoc explorer config = Some cfg ->
  cfg_keys cfg <> [] ->
  exists out w',
    repeat_call n (next_key explorer) (initial config tape) = (Return out, w')
    /\ length out = n
    /\ forall i, i < n -> out !! i = cfg_keys cfg !! (i mod length (cfg_keys cfg)).
Proof.
  intros Hcfg Hne.
  destruct (repeat_next_key explorer (cfg_keys cfg) n 0 (initial config tape)
              (cycle_new (cfg_keys cfg)) Hne) as (out & w' & Hrun & Hlen & Hout & _).
  - simpl. by rewrite initial_keys_lookup, Hcfg.
  - by apply cycle_at_new.
  - exists out, w'. repeat split; try done.
Qed.

Lemma key_rotation_round_robin_witness :
  exists out w',
    repeat_call 5 (next_key "etherscan") (initial sample_config []) = (Return out, w')
    /\ length out = 5
    /\ forall i, i < 5 -> out !! i = ["k1"; "k2"; "k3"] !! (i mod 3).
Proof.
  apply (key_rotation_round_robin sample_config [] "etherscan"
           {| cfg_url := "https://api.etherscan.io/api";
              cfg_keys := ["k1"; "k2"; "k3"];
              cfg_rpc := Some {| chain_id := 1; rpc_url := Some "http://localhost:8545" |} |} 5).
  - reflexivity.
  - discriminate.
Defined.

(** The example of the specification: five calls on [k1, k2, k3]. *)
Example key_rotation_five_calls :
  (repeat_call 5 (next_key "etherscan") (initial sample_config [])).1
  = Return ["k1"; "k2"; "k3"; "k1"; "k2"].
Proof. reflexivity. Qed.

(** ** Running the monad *)

Lemma bind_Return {A B} (m : M A) (f : A -> M B) w a w' :
  m w = (Return a, w') -> bind m f w = f a w'.
Proof. intros H. unfold bind. by rewrite H. Qed.

Lemma bind_Raise {A B} (m : M A) (f : A -> M B) w e w' :
  m w = (Raise e, w') -> bind m f w = (Raise e, w').
Proof. intros H. unfold bind. by rewrite H. Qed.

(** ** The bytecode diff *)

Lemma str_take_drop n s : str_take n s +:+ str_drop n s = s.
Proof.
  revert s. induction n as [|n IH]; intros [|c s]; simpl; try done.
  change (String c (str_take n s +:+ str_drop n s) = String c s).
  by rewrite IH.
Qed.

Lemma length_str_drop n s : String.length (str_drop n s) = String.length s - n.
Proof.
  revert s. induction n as [|n IH]; intros [|c s]; simpl; try done.
Qed.

Lemma str_drop_all n s : String.length s <= n -> str_drop n s = "".
Proof.
  revert s. induction n as [|n IH]; intros [|c s]; simpl; try done; try lia.
  intros H. apply IH. lia.
Qed.

Lemma opt_truthy_Some s : s <> "" -> opt_truthy (Some s) = true.
Proof. intros H. simpl. by destruct (String.eqb_spec s ""). Qed.

Lemma truthy_JStr s : truthy (JStr s) = true <-> s <> "".
Proof. simpl. destruct (String.eqb_spec s ""); split; intros; done. Qed.

(** C3.  With a non-empty reference bytecode and a creation code [cc] that
    the node supplied for the creation transaction (given by the caller or
    looked up), the resolver returns a string [args] without raising: when
    [cc] is longer than the bytecode, [args] is the tail of [cc] whose
    length is the difference of the two lengths in characters; otherwise
    [args] is empty. *)
Theorem on_chain_lookup_diff explorer url address tx h bytecode cc w w1 w2 :
  url <> "" -> bytecode <> "" -> cc <> "" ->
  (truthy tx = true /\ h = tx /\ w1 = w
   \/ truthy tx = false /\ get_creation_tx address url w = (Return h, w1)) ->
  truthy h = true ->
  get_creation_code h url w1 = (Return (JStr cc), w2) ->
  exists args,
    do_on_chain_lookup explorer (Some url) address tx (Some bytecode) w
      = (Return (JStr args), w2)
    /\ (String.length bytecode < String.length cc ->
        (exists pre, cc = pre +:+ args)
        /\ String.length args = String.length cc - String.length bytecode)
    /\ (String.length cc <= String.length bytecode -> args = "").
Proof.
  intros Hurl Hbc Hcc Htx Hh Hcode.
  exists (if (0 <? Z.of_nat (String.length cc) - Z.of_nat (String.length bytecode))%Z
          then str_drop (String.length cc
                         - Z.to_nat (Z.of_nat (String.length cc)
                                     - Z.of_nat (String.length bytecode))) cc
          else "").
  split.
  - unfold do_on_chain_lookup.
    rewrite (opt_truthy_Some url Hurl), (opt_truthy_Some bytecode Hbc).
    cbn [negb default from_option].
    assert (Hres : (if negb (truthy tx) && true
                    then get_creation_tx address url else ret tx) w = (Return h, w1)).
    { destruct Htx as [(Ht & -> & ->) | (Ht & Hget)]; rewrite Ht; simpl; done. }
    rewrite (bind_Return _ _ _ _ _ Hres), Hh. cbn [negb].
    rewrite (bind_Return _ _ _ _ _ Hcode).
    rewrite (proj2 (truthy_JStr cc) Hcc). cbn [negb].
    unfold bind, lift. cbn [py_len].
    destruct (0 <? _)%Z; reflexivity.
  - split.
    + intros Hlt.
      destruct (Z.ltb_spec 0 (Z.of_nat (String.length cc)
                              - Z.of_nat (String.length bytecode))) as [_ | Hge]; [|lia].
      replace (String.length cc
               - Z.to_nat (Z.of_nat (String.length cc) - Z.of_nat (String.length bytecode)))
        with (String.length bytecode) by lia.
      split.
      * exists (str_take (String.length bytecode) cc). by rewrite str_take_drop.
      * by rewrite length_str_drop.
    + intros Hle.
      destruct (Z.ltb_spec 0 (Z.of_nat (String.length cc)
                              - Z.of_nat (String.length bytecode))) as [Hgt | _]; [lia|done].
Qed.

Lemma on_chain_lookup_diff_witness :
  exists args,
    do_on_chain_lookup "etherscan" (Some "http://localhost:8545") "0xde70"
        (JStr "0x01") (Some "aabbcc")
        (initial sample_config [creation_tx_reply (JStr "aabbccddeeff")])
      = (Return (JStr args),
         (get_creation_code (JStr "0x01") "http://localhost:8545"
            (initial sample_config [creation_tx_reply (JStr "aabbccddeeff")])).2)
    /\ (String.length "aabbcc" < String.length "aabbccddeeff" ->
        (exists pre, "aabbccddeeff" = pre +:+ args)
        /\ String.length args = String.length "aabbccddeeff" - String.length "aabbcc")
    /\ (String.length "aabbccddeeff" <= String.length "aabbcc" -> args = "").
Proof.
  apply (on_chain_lookup_diff "etherscan" "http://localhost:8545" "0xde70"
           (JStr "0x01") (JStr "0x01") "aabbcc" "aabbccddeeff"
           (initial sample_config [creation_tx_reply (JStr "aabbccddeeff")])
           (initial sample_config [creation_tx_reply (JStr "aabbccddeeff")])).
  - discriminate.
  - discriminate.
  - discriminate.
  - left. repeat split; reflexivity.
  - reflexivity.
  - reflexivity.
Defined.

(** The two examples of the specification. *)
Example bytecode_diff_example :
  (do_on_chain_lookup "etherscan" (Some "http://localhost:8545") "0xde70"
     (JStr "0x01") (Some "aabbcc")
     (initial sample_config [creation_tx_reply (JStr "aabbccddeeff")])).1
  = Return (JStr "ddeeff").
Proof. reflexivity. Qed.

Example bytecode_diff_non_positive :
  (do_on_chain_lookup "etherscan" (Some "http://localhost:8545") "0xde70"
     (JStr "0x01") (Some "aabbccdd")
     (initial sample_config [creation_tx_reply (JStr "aabbcc")])).1
  = Return (JStr "").
Proof. reflexivity. Qed.

(** ** What the building blocks leave alone *)

Lemma quiet_ret {A} (a : A) : quiet (ret a).
Proof. intros w r w' [= <- <-]. done. Qed.

Lemma quiet_raise {A} e : quiet (@raise A e).
Proof. intros w r w' [= <- <-]. done. Qed.

Lemma quiet_lift {A} (x : outcome A) : quiet (lift x).
Proof. intros w r w' [= <- <-]. done. Qed.

Lemma quiet_bind {A B} (m : M A) (f : A -> M B) :
  quiet m -> (forall a, quiet (f a)) -> quiet (bind m f).
Proof.
  intros Hm Hf w r w'. unfold bind.
  destruct (m w) as [[a | e] w1] eqn:E; destruct (Hm _ _ _ E) as (?&?&?&?).
  - intros Hrun. destruct (Hf _ _ _ _ Hrun) as (?&?&?&?). repeat split; congruence.
  - intros [= <- <-]. done.
Qed.

Lemma quiet_except {A} (m h : M A) :
  quiet m -> quiet h -> quiet (except_ContractNotVerified m h).
Proof.
  intros Hm Hh w r w'. unfold except_ContractNotVerified.
  destruct (m w) as [[a | e] w1] eqn:E; destruct (Hm _ _ _ E) as (?&?&?&?).
  - intros [= <- <-]. done.
  - destruct e; try (intros [= <- <-]; done).
    intros Hrun. destruct (Hh _ _ _ Hrun) as (?&?&?&?). repeat split; congruence.
Qed.

Lemma quiet_send rq : quiet (send rq).
Proof.
  intros w r w'. unfold send.
  destruct (net w) as [|[d x | d] rest]; intros [= <- <-]; done.
Qed.

Lemma quiet_raise_for_status r : quiet (raise_for_status r).
Proof.
  unfold raise_for_status. destruct (_ && _); [apply quiet_raise | apply quiet_ret].
Qed.

Lemma quiet_response_json r : quiet (response_json r).
Proof.
  unfold response_json. destruct (body r); [apply quiet_ret | apply quiet_raise].
Qed.

Lemma quiet_next_key e : quiet (next_key e).
Proof.
  intros w r w'. unfold next_key.
  destruct (keys w !! e) as [c|]; [|intros [= <- <-]; done].
  destruct (cycle_next c) as [[k c']|]; intros [= <- <-]; done.
Qed.

Lemma quiet_ttl_contains k : quiet (ttl_contains k).
Proof. intros w r w' [= <- <-]. done. Qed.

Lemma quiet_ttl_getitem k : quiet (ttl_getitem k).
Proof.
  intros w r w'. unfold ttl_getitem.
  destruct (ttl_find k (weak w)); intros [= <- <-]; done.
Qed.

Lemma quiet_ttl_setitem k v : quiet (ttl_setitem k v).
Proof. intros w r w' [= <- <-]. done. Qed.

Create HintDb quiet.
#[local] Hint Resolve quiet_ret quiet_raise quiet_lift quiet_send
  quiet_raise_for_status quiet_response_json quiet_next_key
  quiet_ttl_contains quiet_ttl_getitem quiet_ttl_setitem : quiet.

(** Splits a computation along its binds and its case distinctions. *)
Ltac quiet_step :=
  match goal with
  | |- quiet (bind _ _) => apply quiet_bind; [|intros ?]
  | |- quiet (except_ContractNotVerified _ _) => apply quiet_except
  | |- quiet (if ?b then _ else _) => destruct b
  | |- quiet (match ?x with _ => _ end) => destruct x
  | |- quiet _ => solve [auto with quiet]
  end.
Ltac quiet_tac := repeat quiet_step.

Lemma quiet_ttl_setdefault k v : quiet (ttl_setdefault k v).
Proof. unfold ttl_setdefault. quiet_tac. Qed.

Lemma quiet_ttl_cache k f : quiet f -> quiet (ttl_cache k f).
Proof.
  intros Hf. unfold ttl_cache. quiet_tac; auto using quiet_ttl_setdefault.
Qed.

Lemma quiet_fetch config e m a addr : quiet (fetch config e m a addr).
Proof. unfold fetch. quiet_tac. Qed.

Lemma quiet_weak_cache config e m a addr : quiet (weak_cache config e m a addr).
Proof. apply quiet_ttl_cache, quiet_fetch. Qed.

Lemma quiet_get_creation_tx addr url : quiet (get_creation_tx addr url).
Proof. unfold get_creation_tx. quiet_tac. Qed.

Lemma quiet_get_creation_code tx url : quiet (get_creation_code tx url).
Proof. unfold get_creation_code. quiet_tac. Qed.

Lemma quiet_do_on_chain_lookup e url addr tx bc :
  quiet (do_on_chain_lookup e url addr tx bc).
Proof.
  unfold do_on_chain_lookup.
  quiet_tac; auto using quiet_get_creation_tx, quiet_get_creation_code.
Qed.

Lemma quiet_explorer_args res : quiet (explorer_args res).
Proof. unfold explorer_args. quiet_tac. Qed.

(** ** [get_from_upstream], step by step *)

Lemma not_held w k : locks w !! k <> Some true -> default false (locks w !! k) = false.
Proof. destruct (locks w !! k) as [[|]|]; simpl; congruence. Qed.

(** With the lock of the key free, the decorated function does this: a hit
    of the disk cache answers at once; a miss asks [weak_cache], verifies,
    and stores the response only when it is verified.  The lock is released
    on every path. *)
Lemma get_from_upstream_run config e m a addr w :
  let k := (e, m, a, addr) in
  locks w !! k <> Some true ->
  get_from_upstream config e m a addr w =
    match cache w !! k with
    | Some v =>
        (Return v,
         release k (with_stats (S (cache_hits w)) (cache_misses w) (acquire k w)))
    | None =>
        match weak_cache config e m a addr
                (with_stats (cache_hits w) (S (cache_misses w)) (acquire k w)) with
        | (Return resp, w2) =>
            match is_verified a resp with
            | Return true => (Return resp, release k (with_cache (insert k resp) w2))
            | Return false =>
                (Raise (ContractNotVerified 404 "contract source code not verified"),
                 release k w2)
            | Raise ex => (Raise ex, release k w2)
            end
        | (Raise ex, w2) => (Raise ex, release k w2)
        end
    end.
Proof.
  intros k Hfree. unfold get_from_upstream, stampede. fold k.
  rewrite (not_held _ _ Hfree).
  unfold memoize, bind at 1, cache_get. cbn [cache acquire with_locks].
  destruct (cache w !! k) as [v|] eqn:Hc.
  - reflexivity.
  - unfold bind at 1, verified_fetch, bind at 1.
    change (acquire k w) with (with_locks (<[k:=true]> (locks w)) w).
    cbn [cache_hits cache_misses with_locks].
    destruct (weak_cache _ _ _ _ _ _) as [[resp | ex] w2]; [|reflexivity].
    unfold bind at 1, lift at 1.
    destruct (is_verified a resp) as [[|] | ex]; reflexivity.
Qed.

(** ** The verification predicate *)





(** ** Requests sent *)

Lemma sent_next_key e w r w' : next_key e w = (r, w') -> sent w' = sent w.
Proof.
  unfold next_key. destruct (keys w !! e) as [c|]; [|by intros [= <- <-]].
  destruct (cycle_next c) as [[k c']|]; by intros [= <- <-].
Qed.

Lemma sent_ttl_getitem k w r w' : ttl_getitem k w = (r, w') -> sent w' = sent w.
Proof.
  unfold ttl_getitem. destruct (ttl_find k (weak w)); by intros [= <- <-].
Qed.

Lemma sent_ttl_setdefault k v w r w' :
  ttl_setdefault k v w = (r, w') -> sent w' = sent w.
Proof.
  unfold ttl_setdefault, bind, ttl_contains, ttl_setitem, ret, raise.
  destruct (match ttl_find k (weak w) with Some _ => _ | None => _ end).
  - destruct (ttl_getitem k w) as [[[x|]|ex] w1] eqn:E;
      intros [= <- <-]; eapply sent_ttl_getitem; eauto.
  - by intros [= <- <-].
Qed.

Lemma sent_send rq w r w' : send rq w = (r, w') -> sent w' = (sent w ++ [rq])%list.
Proof.
  unfold send. destruct (net w) as [|[d x | d] rest]; by intros [= <- <-].
Qed.

Lemma one_request_fetch config e m a addr : one_request (fetch config e m a addr).
Proof.
  intros w r w'. unfold fetch.
  destruct (assoc e config) as [cfg|]; [|intros [= <- <-]; by left].
  unfold bind at 1. destruct (next_key e w) as [[k|ex] w1] eqn:Hk;
    pose proof (sent_next_key _ _ _ _ Hk) as Hs1.
  - unfold bind at 1. destruct (send _ w1) as [[resp|ex] w2] eqn:Hsend;
      pose proof (sent_send _ _ _ _ Hsend) as Hs2.
    + unfold bind, raise_for_status, response_json, raise, ret.
      intros Hrun. right. eexists. rewrite <- Hs1, <- Hs2.
      destruct (_ && _); [by injection Hrun as <- <-|].
      destruct (body resp); by injection Hrun as <- <-.
    + intros [= <- <-]. right. eexists. by rewrite <- Hs1, <- Hs2.
  - intros [= <- <-]. left. done.
Qed.

Lemma one_request_weak_cache config e m a addr :
  one_request (weak_cache config e m a addr).
Proof.
  intros w r w'. unfold weak_cache, ttl_cache. unfold bind at 1.
  destruct (ttl_getitem _ w) as [[[v|]|ex] w1] eqn:Hget;
    pose proof (sent_ttl_getitem _ _ _ _ Hget) as Hs1.
  - intros [= <- <-]. by left.
  - unfold bind. destruct (fetch _ _ _ _ _ w1) as [[v|ex] w2] eqn:Hf;
      pose proof (one_request_fetch _ _ _ _ _ _ _ _ Hf) as Hs2; rewrite Hs1 in Hs2.
    + intros Hset. by rewrite (sent_ttl_setdefault _ _ _ _ _ Hset).
    + by intros [= <- <-].
  - intros [= <- <-]. by left.
Qed.




(** ** The endpoint [constructor_args] when the explorer's answer is no use *)

(** C6.  With [on_chain_lookup] false the endpoint returns the explorer's
    constructor arguments when they are not empty and falls back to the
    chain when they are the empty string; but when the message is not OK
    the variable [args] is never bound and reading it raises
    [UnboundLocalError], and a result that is a string or an empty list
    makes [get_from_upstream] raise before: the fallback is not reached. *)
Example constructor_args_explorer_failure :
  let addr := "0xde709f2102306220921060314715629080e2fb77" in
  let call tape :=
    (constructor_args sample_config eip55_sample "etherscan" addr false
       (Some "0x01") (Some "aabbcc") (initial sample_config tape)).1 in
  (* message NOTOK, result a list with an unverified entry *)
  call [ok 1 (JObj [("status", JStr "0"); ("message", JStr "NOTOK");
                    ("result", JArr [JObj [("SourceCode", JStr "")]])]);
        creation_tx_reply (JStr "aabbccddeeff")]
    = Raise UnboundLocalError
  (* message OK with a remark, result verified and with constructor arguments *)
  /\ call [ok 1 (JObj [("status", JStr "1");
                       ("message", JStr "OK-Missing/Invalid API Key, rate limit of 1/5sec applied");
                       ("result", JArr [JObj [("SourceCode", JStr "contract C {}");
                                              ("ConstructorArguments", JStr "00ab")]])]);
           creation_tx_reply (JStr "aabbccddeeff")]
     = Raise UnboundLocalError
  (* message NOTOK, result a string *)
  /\ call [ok 1 (JObj [("status", JStr "0"); ("message", JStr "NOTOK");
                       ("result", JStr "Max rate limit reached")]);
           creation_tx_reply (JStr "aabbccddeeff")]
     = Raise AttributeError
  (* result an empty list *)
  /\ call [ok 1 (JObj [("status", JStr "1"); ("message", JStr "OK");
                       ("result", JArr [])]);
           creation_tx_reply (JStr "aabbccddeeff")]
     = Raise IndexError
  (* an empty value of the explorer does fall back to the chain *)
  /\ call [ok 1 unverified_source; creation_tx_reply (JStr "aabbccddeeff")]
     = Return (JObj [("address", JStr addr); ("constructor_args", JStr "ddeeff")])
  (* and a non-empty one is returned *)
  /\ call [ok 1 verified_source]
     = Return (JObj [("address", JStr addr); ("constructor_args", JStr "00ab")]).
Proof. vm_compute. repeat split. Qed.

(** ** The resolver when the node has no answer *)

(** C7.  The resolver raises 404 without an rpc url, 400 without a
    bytecode, and 404 when the node answers a lookup with a status other
    than 200; but a node that answers with status 200 and a [null] result,
    or with an error object and no result, makes the subscript raise
    [TypeError] or [KeyError] instead of 404. *)
Example on_chain_lookup_node_without_answer :
  let call tx tape :=
    (do_on_chain_lookup "etherscan" (Some "http://localhost:8545")
       "0xde709f2102306220921060314715629080e2fb77" tx (Some "aabbcc")
       (initial sample_config tape)).1 in
  (* no creator known for the address *)
  call JNull [ok 1 (JObj [("jsonrpc", JStr "2.0"); ("id", JInt 1); ("result", JNull)])]
    = Raise TypeError
  (* the node does not know the method *)
  /\ call JNull [ok 1 (JObj [("jsonrpc", JStr "2.0"); ("id", JInt 1);
                             ("error", JObj [("code", JInt (-32601));
                                             ("message", JStr "Method not found")])])]
     = Raise KeyError
  (* no transaction with the given hash *)
  /\ call (JStr "0x01")
          [ok 1 (JObj [("jsonrpc", JStr "2.0"); ("id", JInt 1); ("result", JNull)])]
     = Raise TypeError
  (* the cases the code does turn into 404 and 400 *)
  /\ call JNull [Reply 1 {| status := 503; body := None |}]
     = Raise (HTTPException 404
                "creation tx not found for address 0xde709f2102306220921060314715629080e2fb77")
  /\ call (JStr "0x01") [Reply 1 {| status := 503; body := None |}]
     = Raise (HTTPException 404 "creation code not found for tx 0x01")
  /\ (do_on_chain_lookup "etherscan" None "0xde70" JNull (Some "aabbcc")
        (initial sample_config [])).1
     = Raise (HTTPException 404 "no rpc configured for explorer etherscan")
  /\ (do_on_chain_lookup "etherscan" (Some "http://localhost:8545") "0xde70" JNull None
        (initial sample_config [])).1
     = Raise (HTTPException 400 "no bytecode provided for address 0xde70").
Proof. vm_compute. repeat split. Qed.

(** ** Invalidation *)

(** The test of the loop in [invalidate]. *)
Lemma invalidate_test (explorer address : string) (key : CacheKey) :
  bool_decide ((key_explorer key, key_address key) = (explorer, address)) = true
  <-> key_explorer key = explorer /\ key_address key = address.
Proof. rewrite bool_decide_eq_true. split; [intros [= -> ->] | intros [-> ->]]; done. Qed.

Lemma invalidate_loop explorer address (l : list CacheKey) : forall acc w,
  NoDup l ->
  (forall k, k ∈ l -> is_Some (cache w !! k)) ->
  exists w',
    for_each l acc (fun deleted key =>
      if bool_decide ((key_explorer key, key_address key) = (explorer, address))
      then bind (cache_delete key) (fun b => ret (deleted + Z.b2z b)%Z)
      else ret deleted) w
    = (Return (acc + Z.of_nat (size (cache w)) - Z.of_nat (size (cache w')))%Z, w')
    /\ (forall k, cache w' !! k =
                  if bool_decide (k ∈ l /\ key_explorer k = explorer
                                  /\ key_address k = address)
                  then None else cache w !! k)
    /\ w' = with_cache (fun _ => cache w') w.
Proof.
  induction l as [|x l IH]; intros acc w Hnd Hin.
  - exists w. cbn [for_each]. unfold ret. split; [f_equal; f_equal; lia|]. split.
    + intros k. rewrite bool_decide_eq_false_2; [done|]. intros [H _]. inversion H.
    + by destruct w.
  - apply NoDup_cons in Hnd as [Hx Hnd].
    destruct (Hin x) as [v Hv]; [apply list_elem_of_here|].
    cbn [for_each].
    destruct (bool_decide ((key_explorer x, key_address x) = (explorer, address)))
      eqn:Htest.
    + apply invalidate_test in Htest as [He Ha].
      set (w1 := with_cache (delete x) w).
      destruct (IH (acc + 1)%Z w1 Hnd) as (w' & Hrun & Hlook & Hw').
      { intros k Hk. unfold w1; simpl. rewrite lookup_delete_ne; [|set_solver].
        apply Hin. by apply list_elem_of_further. }
      exists w'. split; [|split].
      * unfold bind at 1, bind at 1, cache_delete at 1. rewrite Hv.
        rewrite bool_decide_eq_true_2 by eauto. cbn [Z.b2z ret]. fold w1.
        rewrite Hrun. f_equal. f_equal. unfold w1; cbn [cache with_cache].
        rewrite map_size_delete_Some by eauto.
        assert (size (cache w) <> 0) by (eapply map_size_ne_0_lookup_2; eauto). lia.
      * intros k. rewrite Hlook. unfold w1; cbn [cache with_cache].
        destruct (decide (k = x)) as [-> | Hne].
        -- rewrite lookup_delete_eq. rewrite (bool_decide_eq_false_2 (x ∈ l /\ _));
             [|intros [? _]; done].
           rewrite bool_decide_eq_true_2; [done|]. split; [apply list_elem_of_here|done].
        -- rewrite lookup_delete_ne by done.
           apply (f_equal (fun b : bool => if b then None else cache w !! k)).
           apply bool_decide_ext. rewrite elem_of_cons. tauto.
      * rewrite Hw'. unfold w1. by destruct w.
    + apply not_true_iff_false in Htest. rewrite invalidate_test in Htest.
      destruct (IH acc w Hnd) as (w' & Hrun & Hlook & Hw').
      { intros k Hk. apply Hin. by apply list_elem_of_further. }
      exists w'. split; [|split]; [| |done].
      * unfold bind at 1, ret at 1. exact Hrun.
      * intros k. rewrite Hlook.
        apply (f_equal (fun b : bool => if b then None else cache w !! k)).
        apply bool_decide_ext. rewrite elem_of_cons.
        split; [tauto|]. intros ([-> | Hk] & Hek & Hak); [by destruct Htest | done].
Qed.

Lemma with_cache_id w : with_cache (fun _ => cache w) w = w.
Proof. by destruct w. Qed.

(** C8.  [invalidate] removes from the disk cache exactly the entries whose
    explorer and address are the given ones, whatever their module and
    action, keeps every other entry, and returns how many it removed; the
    TTL cache with its expiry times, the clock and everything else in the
    process stay as they were. *)
Theorem invalidate_spec explorer address w :
  let hit := fun kv : CacheKey * json =>
               key_explorer kv.1 = explorer /\ key_address kv.1 = address in
  exists w',
    invalidate explorer address w
      = (Return (JObj [("deleted", JInt (Z.of_nat (size (filter hit (cache w)))))]), w')
    /\ cache w' = filter (fun kv => ~ hit kv) (cache w)
    /\ weak w' = weak w /\ clock w' = clock w
    /\ w' = with_cache (fun _ => cache w') w.
Proof.
  intros hit.
  destruct (invalidate_loop explorer address (map fst (map_to_list (cache w))) 0%Z w)
    as (w' & Hrun & Hlook & Hw').
  { apply NoDup_fst_map_to_list. }
  { intros k Hk. apply list_elem_of_fmap in Hk as ([k' v] & -> & Hkv).
    apply elem_of_map_to_list in Hkv. eauto. }
  assert (Hcache : cache w' = filter (fun kv => ~ hit kv) (cache w)).
  { apply map_eq. intros k. rewrite Hlook. apply option_eq. intros v.
    rewrite map_lookup_filter_Some. unfold hit; simpl.
    destruct (bool_decide _) eqn:Hb.
    - apply bool_decide_eq_true in Hb as (_ & He & Ha). split; [done|]. tauto.
    - apply bool_decide_eq_false in Hb. split; [|tauto]. intros Hv. split; [done|].
      intros [He Ha]. apply Hb. split; [|done].
      apply list_elem_of_fmap. exists (k, v). split; [done|].
      by apply elem_of_map_to_list. }
  exists w'. split; [|split; [done|]].
  - unfold invalidate. unfold bind at 1, cache_iterkeys at 1.
    unfold bind at 1. rewrite Hrun. unfold ret. f_equal. f_equal. f_equal. f_equal.
    f_equal. f_equal.
    rewrite Hcache.
    rewrite <- (map_filter_union_complement hit (cache w)) at 1.
    rewrite map_size_disj_union by apply map_disjoint_filter_complement. lia.
  - rewrite Hw'. done.
Qed.

(** ** The TTL cache answers again what it has just answered *)

Lemma ttl_find_key k c e : ttl_find k c = Some e -> te_key e = k.
Proof.
  unfold ttl_find. intros H. apply find_some in H as [_ H].
  by apply bool_decide_eq_true in H.
Qed.

Lemma ttl_find_remove k c : ttl_find k (ttl_remove k c) = None.
Proof.
  unfold ttl_find, ttl_remove. induction c as [|x c IH]; simpl; [done|].
  destruct (bool_decide (te_key x = k)) eqn:E; simpl; [done|]. by rewrite E.
Qed.

Lemma ttl_find_moved k c e :
  te_key e = k -> ttl_find k (ttl_remove k c ++ [e]) = Some e.
Proof.
  intros He. pose proof (ttl_find_remove k c) as Hrm. unfold ttl_find in *.
  induction (ttl_remove k c) as [|x c' IH]; simpl in *.
  - by rewrite bool_decide_eq_true_2.
  - destruct (bool_decide (te_key x = k)); [done | auto].
Qed.

Lemma ttl_getitem_live k v w :
  live k v w ->
  exists w', ttl_getitem k w = (Return (Some v), w')
             /\ live k v w' /\ cache w' = cache w /\ locks w' = locks w.
Proof.
  intros (e & Hfind & Hv & Hlt). unfold ttl_getitem. rewrite Hfind.
  apply Nat.ltb_lt in Hlt as Hltb. rewrite Hltb, Hv.
  eexists. split; [reflexivity|]. split; [|done].
  exists e. cbn [weak clock with_weak].
  rewrite ttl_find_moved by (eapply ttl_find_key; eauto). done.
Qed.

Lemma ttl_setdefault_live k v w x w' :
  ttl_setdefault k v w = (Return x, w') -> live k x w'.
Proof.
  unfold ttl_setdefault. unfold bind at 1, ttl_contains at 1.
  destruct (ttl_find k (weak w)) as [e|] eqn:Hfind.
  - destruct (clock w <? te_expires e)%nat eqn:Hlt.
    + apply Nat.ltb_lt in Hlt.
      destruct (ttl_getitem_live k (te_value e) w) as (w1 & Hget & Hlive & _).
      { exists e. done. }
      rewrite (bind_Return _ _ _ _ _ Hget). by intros [= <- <-].
    + unfold bind, ttl_setitem, ret. intros [= <- <-].
      eexists. cbn [weak clock with_weak]. rewrite ttl_find_moved by done.
      split; [done|]. split; [done|]. simpl. unfold ttl. lia.
  - unfold bind, ttl_setitem, ret. intros [= <- <-].
    eexists. cbn [weak clock with_weak]. rewrite ttl_find_moved by done.
    split; [done|]. split; [done|]. simpl. unfold ttl. lia.
Qed.

Lemma ttl_cache_live k f w v w' :
  ttl_cache k f w = (Return v, w') -> live k v w'.
Proof.
  unfold ttl_cache. unfold bind at 1.
  destruct (ttl_getitem k w) as [[[x|]|ex] w1] eqn:Hget; [| |discriminate].
  - intros [= <- <-]. revert Hget. unfold ttl_getitem.
    destruct (ttl_find k (weak w)) as [e|] eqn:Hfind; [|discriminate].
    destruct (clock w <? te_expires e)%nat eqn:Hlt; [|discriminate].
    intros [= <- <-]. exists e. cbn [weak clock with_weak].
    rewrite ttl_find_moved by (eapply ttl_find_key; eauto).
    apply Nat.ltb_lt in Hlt. done.
  - unfold bind. destruct (f w1) as [[y|ex] w2]; [|discriminate].
    apply ttl_setdefault_live.
Qed.

Lemma ttl_cache_hit k f v w :
  live k v w ->
  exists w', ttl_cache k f w = (Return v, w')
             /\ live k v w' /\ cache w' = cache w /\ locks w' = locks w.
Proof.
  intros Hlive. destruct (ttl_getitem_live k v w Hlive) as (w' & Hget & ?).
  exists w'. unfold ttl_cache. by rewrite (bind_Return _ _ _ _ _ Hget).
Qed.

(** ** What [weak_cache] and the predicate can raise *)

Lemma fetch_raises config e m a addr w ex w' :
  fetch config e m a addr w = (Raise ex, w') ->
  forall c d, ex <> ContractNotVerified c d.
Proof.
  unfold fetch. destruct (assoc e config) as [cfg|]; [|by intros [= <- <-]].
  unfold bind at 1, next_key at 1.
  destruct (keys w !! e) as [cy|]; [|by intros [= <- <-]].
  destruct (cycle_next cy) as [[k cy']|]; [|by intros [= <- <-]].
  unfold bind at 1, send at 1. cbn [net with_keys].
  destruct (net w) as [|[dl r|dl] rest]; try by intros [= <- <-].
  unfold bind, raise_for_status, response_json, raise, ret.
  destruct (_ && _); [by intros [= <- <-]|].
  destruct (body r); by intros [= <- <-].
Qed.

Lemma weak_cache_raises config e m a addr w ex w' :
  weak_cache config e m a addr w = (Raise ex, w') ->
  forall c d, ex <> ContractNotVerified c d.
Proof.
  unfold weak_cache, ttl_cache. unfold bind at 1.
  destruct (ttl_getitem _ w) as [[[x|]|ex1] w1] eqn:Hget.
  - discriminate.
  - unfold bind at 1.
    destruct (fetch _ _ _ _ _ w1) as [[y|ex2] w2] eqn:Hf.
    + unfold ttl_setdefault, bind, ttl_contains, ttl_setitem, ret, raise.
      destruct (match ttl_find _ (weak w2) with Some _ => _ | None => _ end);
        [|discriminate].
      destruct (ttl_getitem _ w2) as [[[z|]|ex3] w3] eqn:Hget2;
        intros [= <- <-]; try done.
      revert Hget2. unfold ttl_getitem. destruct (ttl_find _ _); discriminate.
    + intros [= <- <-]. eapply fetch_raises; eauto.
  - revert Hget. unfold ttl_getitem. destruct (ttl_find _ _); discriminate.
Qed.

Lemma is_verified_raises a resp ex :
  is_verified a resp = Raise ex -> forall c d, ex <> ContractNotVerified c d.
Proof.
  unfold is_verified.
  destruct (String.eqb a "getsourcecode").
  - destruct resp as [| | | | |f]; simpl; try by intros [= <-].
    destruct (dict_get "result" f) as [result|]; simpl; [|by intros [= <-]].
    destruct result as [| | |s|[|first rest]|g]; simpl; try by intros [= <-].
    + destruct s; simpl; by intros [= <-].
    + destruct first; simpl; by intros [= <-].
  - destruct (String.eqb a "getabi"); [|by intros [= <-]].
    destruct resp as [| | | | |f]; simpl; try by intros [= <-].
    destruct (dict_get "result" f); simpl; [discriminate | by intros [= <-]].
Qed.

(** ** The invariant of the process *)

Lemma invariant_quiet {A} cs (m : M A) w r w' :
  quiet m -> m w = (r, w') -> invariant cs w -> invariant cs w'.
Proof.
  intros Hq Hrun (Hl & Hv & Hc). destruct (Hq _ _ _ Hrun) as (Ec & El & _).
  unfold invariant, lock_free, verified_only, canonical_keys.
  rewrite Ec, El. done.
Qed.

Lemma locks_released k w w2 :
  lock_free w -> locks w2 = locks (acquire k w) -> lock_free (release k w2).
Proof.
  intros Hfree El k'. unfold release. cbn [locks with_locks]. rewrite El.
  unfold acquire. cbn [locks with_locks].
  destruct (decide (k = k')) as [<- | Hne].
  - rewrite lookup_insert_eq. discriminate.
  - rewrite !lookup_insert_ne by done. apply Hfree.
Qed.

(** What a call of [get_from_upstream] does to the disk cache and the
    locks: it stores nothing, or it stores under its key the verified
    response that it returns. *)
Lemma get_from_upstream_effect config e m a addr w r w' :
  let k := (e, m, a, addr) in
  lock_free w ->
  get_from_upstream config e m a addr w = (r, w') ->
  lock_free w'
  /\ (cache w' = cache w
      \/ exists resp, r = Return resp /\ is_verified a resp = Return true
                      /\ cache w !! k = None
                      /\ cache w' = <[k := resp]> (cache w)).
Proof.
  intros k Hfree. rewrite get_from_upstream_run by apply Hfree. fold k.
  destruct (cache w !! k) as [v|] eqn:Hc.
  - intros [= <- <-]. split; [by apply (locks_released k w)|]. by left.
  - destruct (weak_cache _ _ _ _ _ _) as [[resp | ex] w2] eqn:Hw;
      destruct (quiet_weak_cache _ _ _ _ _ _ _ _ Hw) as (Ec & El & _).
    + destruct (is_verified a resp) as [[|] | ex] eqn:Hv; intros [= <- <-].
      * split; [by apply (locks_released k w)|]. right. exists resp.
        repeat split; try done. unfold release. cbn [cache with_locks with_cache].
        by rewrite Ec.
      * split; [by apply (locks_released k w)|]. left. exact Ec.
      * split; [by apply (locks_released k w)|]. left. exact Ec.
    + intros [= <- <-]. split; [by apply (locks_released k w)|]. left. exact Ec.
Qed.

Lemma get_from_upstream_invariant config cs e m a addr w r w' :
  (exists a0, cs a0 = Some addr) ->
  invariant cs w ->
  get_from_upstream config e m a addr w = (r, w') ->
  invariant cs w'.
Proof.
  intros Haddr (Hl & Hv & Hc) Hrun.
  destruct (get_from_upstream_effect _ _ _ _ _ _ _ _ Hl Hrun)
    as (Hl' & [Ec | (resp & -> & Hver & _ & Ec)]).
  - split; [done|]. unfold verified_only, canonical_keys. rewrite Ec. done.
  - split; [done|]. split.
    + intros k v. rewrite Ec. destruct (decide ((e, m, a, addr) = k)) as [<- | Hne].
      * rewrite lookup_insert_eq. by intros [= <-].
      * rewrite lookup_insert_ne by done. apply Hv.
    + intros k v. rewrite Ec. destruct (decide ((e, m, a, addr) = k)) as [<- | Hne].
      * intros _. exact Haddr.
      * rewrite lookup_insert_ne by done. apply Hc.
Qed.

Lemma lookup_or_raw_invariant config cs e m a addr w r w' :
  (exists a0, cs a0 = Some addr) ->
  invariant cs w ->
  except_ContractNotVerified
    (get_from_upstream config e m a addr) (weak_cache config e m a addr) w = (r, w') ->
  invariant cs w'.
Proof.
  intros Haddr Hinv. unfold except_ContractNotVerified.
  destruct (get_from_upstream _ _ _ _ _ w) as [[v | ex] w1] eqn:Hrun;
    pose proof (get_from_upstream_invariant _ _ _ _ _ _ _ _ _ Haddr Hinv Hrun) as Hinv1.
  - by intros [= <- <-].
  - destruct ex; try by intros [= <- <-].
    intros Hw. eapply invariant_quiet; [apply quiet_weak_cache | exact Hw | done].
Qed.

Lemma cached_api_invariant config cs e m a address w r w' :
  invariant cs w ->
  cached_api config cs e m a address w = (r, w') ->
  invariant cs w'.
Proof.
  intros Hinv. unfold cached_api.
  destruct (negb _); [by intros [= <- <-]|].
  destruct (negb _); [by intros [= <- <-]|].
  destruct (negb _); [by intros [= <- <-]|].
  destruct (cs address) as [addr|] eqn:Hcs; [|by intros [= <- <-]].
  apply lookup_or_raw_invariant; eauto.
Qed.

Lemma constructor_args_invariant config cs e address o tx bc w r w' :
  invariant cs w ->
  constructor_args config cs e address o tx bc w = (r, w') ->
  invariant cs w'.
Proof.
  intros Hinv. unfold constructor_args.
  destruct (cs address) as [addr|] eqn:Hcs; [|by intros [= <- <-]].
  unfold bind at 1.
  match goal with |- context [match ?rpc w with _ => _ end] =>
    destruct (rpc w) as [[url | ex] w1] eqn:Hrpc;
    assert (Hinv1 : invariant cs w1)
      by (eapply invariant_quiet; [|exact Hrpc|exact Hinv]; quiet_tac)
  end; [|by intros [= <- <-]].
  destruct o.
  - intros Hrun. eapply invariant_quiet; [|exact Hrun|exact Hinv1].
    quiet_tac. apply quiet_do_on_chain_lookup.
  - unfold bind at 1.
    destruct (except_ContractNotVerified _ _ w1) as [[res | ex] w2] eqn:Hlook;
      assert (Hinv2 : invariant cs w2)
        by (eapply lookup_or_raw_invariant; [|exact Hinv1|exact Hlook]; eauto);
      [|by intros [= <- <-]].
    intros Hrun. eapply invariant_quiet; [|exact Hrun|exact Hinv2].
    quiet_tac; auto using quiet_explorer_args, quiet_do_on_chain_lookup.
Qed.

Lemma invalidate_invariant cs e address w r w' :
  invariant cs w -> invalidate e address w = (r, w') -> invariant cs w'.
Proof.
  intros (Hl & Hv & Hc) Hrun.
  destruct (invalidate_spec e address w) as (w2 & Hrun2 & Ec & _ & _ & Ew).
  rewrite Hrun in Hrun2. injection Hrun2 as _ ->.
  assert (El : locks w2 = locks w) by (rewrite Ew; done).
  split; [|split].
  - intros k. rewrite El. apply Hl.
  - intros k v. rewrite Ec. intros [Hk _]%map_lookup_filter_Some. eauto.
  - intros k v. rewrite Ec. intros [Hk _]%map_lookup_filter_Some. eauto.
Qed.

Lemma handle_invariant config cs ev w :
  invariant cs w -> invariant cs (handle config cs ev w).2.
Proof.
  intros Hinv. destruct ev as [e m a addr | e addr | e addr o tx bc | d].
  - destruct (handle _ _ _ w) as [r w'] eqn:H. eapply cached_api_invariant; eauto.
  - destruct (handle _ _ _ w) as [r w'] eqn:H. eapply invalidate_invariant; eauto.
  - destruct (handle _ _ _ w) as [r w'] eqn:H. eapply constructor_args_invariant; eauto.
  - exact Hinv.
Qed.

Lemma run_invariant config cs evs : forall w,
  invariant cs w -> invariant cs (run config cs evs w).
Proof.
  induction evs as [|ev evs IH]; intros w Hinv; [done|].
  apply IH. by apply handle_invariant.
Qed.

Lemma reachable_invariant config cs w :
  reachable config cs w -> invariant cs w.
Proof.
  intros (tape & evs & ->). apply run_invariant.
  split; [|split]; intros k v; cbn [initial cache locks];
    rewrite ?lookup_empty; try done.
  all: by rewrite lookup_empty in v.
Qed.

(** ** Invalidation compares addresses as they are *)

Lemma eip55_sample_idempotent x y :
  eip55_sample x = Some y -> eip55_sample y = Some y.
Proof.
  unfold eip55_sample.
  destruct (_ || _); [by intros [= <-]|].
  destruct (_ || _); [by intros [= <-]|].
  destruct (String.eqb x _); [by intros [= <-] | discriminate].
Qed.

(** C10.  [invalidate] compares the address it is given with the stored
    keys as strings, and every stored key holds an address in checksummed
    form.  So in every state the service can reach, for an address whose
    checksummed form differs from the form given, [invalidate] answers
    [deleted: 0] and leaves the whole state, the entries of that contract
    among it, as it was. *)
Theorem invalidate_ignores_other_spelling config cs w explorer address c :
  (forall x y, cs x = Some y -> cs y = Some y) ->
  reachable config cs w ->
  cs address = Some c ->
  c <> address ->
  (forall k v, cache w !! k = Some v -> cs (key_address k) = Some (key_address k))
  /\ invalidate explorer address w = (Return (JObj [("deleted", JInt 0)]), w).
Proof.
  intros Hidem Hreach Hcs Hne.
  destruct (reachable_invariant _ _ _ Hreach) as (_ & _ & Hcanon).
  assert (Hkeys : forall k v, cache w !! k = Some v ->
                              cs (key_address k) = Some (key_address k)).
  { intros k v Hk. destruct (Hcanon k v Hk) as [a0 Ha0]. eauto. }
  split; [exact Hkeys|].
  destruct (invalidate_spec explorer address w) as (w' & Hrun & Ec & _ & _ & Ew).
  assert (Hnone : filter (fun kv : CacheKey * json =>
                    key_explorer kv.1 = explorer /\ key_address kv.1 = address)
                    (cache w) = ∅).
  { apply map_empty. intros k. apply map_lookup_filter_None. right.
    intros v Hk [_ Ha]; simpl in Ha.
    apply Hkeys in Hk. rewrite Ha in Hk. congruence. }
  rewrite Hnone, map_size_empty in Hrun. rewrite Hrun. f_equal.
  rewrite Ew, Ec.
  rewrite <- (with_cache_id w) at 2. f_equal.
  assert (Hall : filter (fun kv : CacheKey * json =>
                   ~ (key_explorer kv.1 = explorer /\ key_address kv.1 = address))
                   (cache w) = cache w).
  { apply map_filter_id. intros k v Hk [_ Ha]; simpl in Ha.
    apply Hkeys in Hk. rewrite Ha in Hk. congruence. }
  rewrite Hall. by destruct w.
Qed.

Lemma invalidate_ignores_other_spelling_witness :
  let w := run sample_config eip55_sample
             [CachedApi "etherscan" "contract" "getsourcecode"
                "0x5aaeb6053f3e94c9b9a09f33669435e7ef1beaed"]
             (initial sample_config [ok 1 verified_source]) in
  (forall k v, cache w !! k = Some v ->
     eip55_sample (key_address k) = Some (key_address k))
  /\ invalidate "etherscan" "0x5aaeb6053f3e94c9b9a09f33669435e7ef1beaed" w
     = (Return (JObj [("deleted", JInt 0)]), w).
Proof.
  apply (invalidate_ignores_other_spelling sample_config eip55_sample _
           "etherscan" "0x5aaeb6053f3e94c9b9a09f33669435e7ef1beaed"
           "0x5aAeb6053F3E94C9b9A09f33669435E7Ef1BeAed").
  - exact eip55_sample_idempotent.
  - exists [ok 1 verified_source],
      [CachedApi "etherscan" "contract" "getsourcecode"
         "0x5aaeb6053f3e94c9b9a09f33669435e7ef1beaed"].
    reflexivity.
  - reflexivity.
  - discriminate.
Defined.

(** The entry of the contract is there all the while: the lower-case
    address removes nothing, the checksummed one removes it. *)
Example invalidate_lower_case_address :
  let w := run sample_config eip55_sample
             [CachedApi "etherscan" "contract" "getsourcecode"
                "0x5aaeb6053f3e94c9b9a09f33669435e7ef1beaed"]
             (initial sample_config [ok 1 verified_source]) in
  cache w !! ("etherscan", "contract", "getsourcecode",
              "0x5aAeb6053F3E94C9b9A09f33669435E7Ef1BeAed") = Some verified_source
  /\ (invalidate "etherscan" "0x5aaeb6053f3e94c9b9a09f33669435e7ef1beaed" w).1
     = Return (JObj [("deleted", JInt 0)])
  /\ (invalidate "etherscan" "0x5aAeb6053F3E94C9b9A09f33669435E7Ef1BeAed" w).1
     = Return (JObj [("deleted", JInt 1)]).
Proof. vm_compute. repeat split. Qed.

(** ** Unverified responses are served and not stored *)

Lemma live_same_weak k v w w' :
  weak w' = weak w -> clock w' = clock w -> live k v w -> live k v w'.
Proof. intros Ew Ec (e & ? & ? & ?). exists e. by rewrite Ew, Ec. Qed.

(** When [get_from_upstream] raises [ContractNotVerified], the disk cache
    had no entry for the key and still has none, all locks are free again,
    and the TTL cache holds the response, which failed the verification. *)
Lemma get_from_upstream_unverified config e m a addr w c d w1 :
  lock_free w ->
  get_from_upstream config e m a addr w = (Raise (ContractNotVerified c d), w1) ->
  exists resp,
    is_verified a resp = Return false
    /\ live (e, m, a, addr) resp w1
    /\ cache w !! (e, m, a, addr) = None
    /\ cache w1 = cache w
    /\ lock_free w1.
Proof.
  intros Hfree. rewrite get_from_upstream_run by apply Hfree.
  destruct (cache w !! _) as [v|] eqn:Hc; [discriminate|].
  destruct (weak_cache _ _ _ _ _ _) as [[resp | ex] w2] eqn:Hw.
  - destruct (quiet_weak_cache _ _ _ _ _ _ _ _ Hw) as (Ec & El & _).
    destruct (is_verified a resp) as [[|] | ex] eqn:Hv; [discriminate| |].
    + intros [= <- <- <-]. exists resp. split; [done|]. split.
      * apply (live_same_weak _ _ w2); [done..|].
        eapply ttl_cache_live. exact Hw.
      * repeat split; try done. by apply (locks_released _ w).
    + intros [= -> <-]. by destruct (is_verified_raises _ _ _ Hv c d).
  - intros [= -> <-]. by destruct (weak_cache_raises _ _ _ _ _ _ _ _ Hw c d).
Qed.

Lemma fetch_frame config e m a addr w r w' :
  fetch config e m a addr w = (r, w') ->
  weak w' = weak w /\ (clock w <= clock w')%nat
  /\ (forall v, r = Return v -> exists rq : request, sent w' = (sent w ++ [rq])%list).
Proof.
  unfold fetch. destruct (assoc e config) as [cfg|];
    [|intros [= <- <-]; repeat split; [lia | discriminate]].
  unfold bind at 1, next_key at 1.
  destruct (keys w !! e) as [cy|];
    [|intros [= <- <-]; repeat split; [lia | discriminate]].
  destruct (cycle_next cy) as [[k cy']|];
    [|intros [= <- <-]; repeat split; [lia | discriminate]].
  unfold bind at 1, send at 1. cbn [net with_keys].
  destruct (net w) as [|[dl rp|dl] rest].
  - intros [= <- <-]. cbn. repeat split; [lia | discriminate].
  - unfold bind, raise_for_status, response_json, raise, ret.
    destruct (_ && _).
    + intros [= <- <-]. cbn. repeat split; [lia | discriminate].
    + destruct (body rp); intros [= <- <-]; cbn; repeat split; try lia; eauto;
        discriminate.
  - intros [= <- <-]. cbn. repeat split; [lia | discriminate].
Qed.

(** A miss of the TTL cache: whatever entry the key has is expired. *)
Lemma ttl_getitem_miss k w wg :
  ttl_getitem k w = (Return None, wg) ->
  clock wg = clock w /\ sent wg = sent w /\ cache wg = cache w
  /\ forall en, ttl_find k (weak wg) = Some en -> (te_expires en <= clock w)%nat.
Proof.
  unfold ttl_getitem. destruct (ttl_find k (weak w)) as [e|] eqn:Hfind.
  - destruct (clock w <? te_expires e)%nat eqn:Hlt; [discriminate|].
    intros [= <-]. cbn [clock sent cache weak with_weak]. repeat split.
    intros en. rewrite ttl_find_moved by (eapply ttl_find_key; eauto).
    intros [= <-]. by apply Nat.ltb_ge in Hlt.
  - intros [= <-]. repeat split. intros en. rewrite Hfind. discriminate.
Qed.

(** When the four checks pass, the endpoint is the lookup with its
    fallback, on the checksummed address. *)
Lemma cached_api_accepts config cs e a address addr w :
  is_Some (assoc e config) ->
  a = "getsourcecode" \/ a = "getabi" ->
  cs address = Some addr ->
  cached_api config cs e "contract" a address w
  = except_ContractNotVerified
      (get_from_upstream config e "contract" a addr)
      (weak_cache config e "contract" a addr) w.
Proof.
  intros He Ha Hcs. unfold cached_api.
  rewrite bool_decide_eq_true_2 by done. cbn [negb].
  rewrite bool_decide_eq_true_2 by apply list_elem_of_here. cbn [negb].
  rewrite bool_decide_eq_true_2 by (rewrite !elem_of_cons; tauto).
  cbn [negb]. by rewrite Hcs.
Qed.

(** ** Where a response of [weak_cache] comes from *)








(** The response with an empty source field comes back to the caller, and
    an inspection of the disk cache afterwards finds nothing. *)
Example unverified_served_not_stored :
  let r := cached_api sample_config eip55_sample "etherscan" "contract" "getsourcecode"
             "0x5aaeb6053f3e94c9b9a09f33669435e7ef1beaed"
             (initial sample_config [ok 2 unverified_source]) in
  r.1 = Return unverified_source
  /\ cache r.2 = ∅
  /\ length (sent r.2) = 1.
Proof. vm_compute. repeat split. Qed.

(** ** Lookups of a stored key *)

(** A hit of the disk cache: the stored value is returned and only the hit
    counter and the lock of the key are touched. *)
Lemma get_from_upstream_hit config e m a addr w v :
  let k := (e, m, a, addr) in
  locks w !! k <> Some true ->
  cache w !! k = Some v ->
  exists w',
    get_from_upstream config e m a addr w = (Return v, w')
    /\ cache w' = cache w /\ weak w' = weak w /\ keys w' = keys w
    /\ sent w' = sent w /\ net w' = net w /\ clock w' = clock w
    /\ locks w' !! k = Some false.
Proof.
  intros k Hfree Hc. rewrite get_from_upstream_run by done. fold k. rewrite Hc.
  eexists. split; [reflexivity|]. repeat split.
  unfold release. cbn [locks with_locks]. by rewrite lookup_insert_eq.
Qed.

Lemma repeat_get_from_upstream_hit config e m a addr v n : forall w,
  locks w !! (e, m, a, addr) <> Some true ->
  cache w !! (e, m, a, addr) = Some v ->
  exists w',
    repeat_call n (get_from_upstream config e m a addr) w
      = (Return (replicate n v), w')
    /\ cache w' = cache w /\ weak w' = weak w /\ keys w' = keys w
    /\ sent w' = sent w /\ net w' = net w /\ clock w' = clock w.
Proof.
  induction n as [|n IH]; intros w Hfree Hc.
  - exists w. done.
  - destruct (get_from_upstream_hit config e m a addr w v Hfree Hc)
      as (w1 & Hrun & Ec & Ew & Ek & Es & En & Et & El).
    destruct (IH w1) as (w' & Hrest & Ec' & Ew' & Ek' & Es' & En' & Et').
    { rewrite El. discriminate. }
    { by rewrite Ec. }
    exists w'. split.
    + cbn [repeat_call replicate]. rewrite (bind_Return _ _ _ _ _ Hrun).
      by rewrite (bind_Return _ _ _ _ _ Hrest).
    + repeat split; congruence.
Qed.

(** C5.  A lookup that returns a value leaves it in the disk cache under
    its key and has sent at most one request.  From then on, and in any
    state where the key has an entry, [n] lookups in a row each return the
    stored value and send nothing: the network tape, the log of requests,
    the key iterators, the TTL cache and the disk cache stay as they
    are. *)
Theorem lookup_coalesced config e m a addr :
  let k := (e, m, a, addr) in
  (forall w v w1,
     locks w !! k <> Some true ->
     get_from_upstream config e m a addr w = (Return v, w1) ->
     cache w1 !! k = Some v
     /\ locks w1 !! k <> Some true
     /\ (sent w1 = sent w \/ exists rq : request, sent w1 = (sent w ++ [rq])%list))
  /\ (forall w v n,
        locks w !! k <> Some true ->
        cache w !! k = Some v ->
        exists w',
          repeat_call n (get_from_upstream config e m a addr) w
            = (Return (replicate n v), w')
          /\ cache w' = cache w /\ weak w' = weak w /\ keys w' = keys w
          /\ sent w' = sent w /\ net w' = net w /\ clock w' = clock w).
Proof.
  intros k. split.
  - intros w v w1 Hfree. rewrite get_from_upstream_run by done. fold k.
    destruct (cache w !! k) as [v0|] eqn:Hc.
    + intros [= <- <-]. split; [done|]. split; [|by left].
      unfold release. cbn [locks with_locks]. rewrite lookup_insert_eq. discriminate.
    + destruct (weak_cache _ _ _ _ _ _) as [[resp | ex] w2] eqn:Hw; [|discriminate].
      destruct (is_verified a resp) as [[|] | ex]; [|discriminate..].
      intros [= <- <-]. split; [|split].
      * unfold release. cbn [cache with_locks with_cache]. by rewrite lookup_insert_eq.
      * unfold release. cbn [locks with_locks]. rewrite lookup_insert_eq. discriminate.
      * exact (one_request_weak_cache _ _ _ _ _ _ _ _ Hw).
  - intros w v n. apply repeat_get_from_upstream_hit.
Qed.

Lemma lookup_coalesced_witness :
  let k := ("etherscan", "contract", "getsourcecode",
            "0x5aAeb6053F3E94C9b9A09f33669435E7Ef1BeAed") in
  let lookup := get_from_upstream sample_config "etherscan" "contract" "getsourcecode"
                  "0x5aAeb6053F3E94C9b9A09f33669435E7Ef1BeAed" in
  let w := initial sample_config [ok 2 verified_source] in
  let w1 := (lookup w).2 in
  (cache w1 !! k = Some verified_source
   /\ locks w1 !! k <> Some true
   /\ (sent w1 = sent w \/ exists rq : request, sent w1 = (sent w ++ [rq])%list))
  /\ exists w',
       repeat_call 3 lookup w1 = (Return (replicate 3 verified_source), w')
       /\ cache w' = cache w1 /\ weak w' = weak w1 /\ keys w' = keys w1
       /\ sent w' = sent w1 /\ net w' = net w1 /\ clock w' = clock w1.
Proof.
  intros k lookup w w1.
  destruct (lookup_coalesced sample_config "etherscan" "contract" "getsourcecode"
              "0x5aAeb6053F3E94C9b9A09f33669435E7Ef1BeAed") as [Hfirst Hnext].
  split.
  - apply Hfirst; [vm_compute; discriminate | vm_compute; reflexivity].
  - apply Hnext; [vm_compute; discriminate | vm_compute; reflexivity].
Defined.

(** Four lookups of a verified key: one request in all, four equal
    payloads, one written entry. *)
Example four_lookups_one_fetch :
  let lookup := get_from_upstream sample_config "etherscan" "contract" "getsourcecode"
                  "0x5aAeb6053F3E94C9b9A09f33669435E7Ef1BeAed" in
  let r := repeat_call 4 lookup
             (initial sample_config [ok 2 verified_source; ok 2 unverified_source]) in
  r.1 = Return (replicate 4 verified_source)
  /\ length (sent r.2) = 1
  /\ size (cache r.2) = 1
  /\ cache_hits r.2 = 3 /\ cache_misses r.2 = 1.
Proof. vm_compute. repeat split. Qed.

(** * Further properties of the handlers *)

(** ** The checks of [cached_api] *)

(** X1.  [cached_api] checks the explorer, the module, the action and the
    address, in this order, and answers the first failed check with status
    400 and its own detail; in each case the state of the process is left
    untouched: no lock, no counter, no request. *)
Theorem cached_api_rejects config cs e m a address w :
  (assoc e config = None ->
   cached_api config cs e m a address w
     = (Raise (HTTPException 400 "explorer not supported"), w))
  /\ (is_Some (assoc e config) -> m <> "contract" ->
      cached_api config cs e m a address w
        = (Raise (HTTPException 400 "module not supported"), w))
  /\ (is_Some (assoc e config) -> m = "contract" ->
      a <> "getsourcecode" -> a <> "getabi" ->
      cached_api config cs e m a address w
        = (Raise (HTTPException 400 "action not supported"), w))
  /\ (is_Some (assoc e config) -> m = "contract" ->
      a = "getsourcecode" \/ a = "getabi" ->
      cs address = None ->
      cached_api config cs e m a address w
        = (Raise (HTTPException 400 "invalid address"), w)).
Proof.
  unfold cached_api. repeat split.
  - intros ->. rewrite bool_decide_eq_false_2; [done|]. by intros [? ?].
  - intros He Hm. rewrite bool_decide_eq_true_2 by done. cbn [negb].
    rewrite bool_decide_eq_false_2; [done|].
    rewrite list_elem_of_singleton. done.
  - intros He -> H1 H2. rewrite bool_decide_eq_true_2 by done. cbn [negb].
    rewrite bool_decide_eq_true_2 by apply list_elem_of_here. cbn [negb].
    rewrite bool_decide_eq_false_2; [done|].
    rewrite !elem_of_cons, elem_of_nil. tauto.
  - intros He -> Ha Hcs. rewrite bool_decide_eq_true_2 by done. cbn [negb].
    rewrite bool_decide_eq_true_2 by apply list_elem_of_here. cbn [negb].
    rewrite bool_decide_eq_true_2
      by (rewrite !elem_of_cons; tauto).
    cbn [negb]. by rewrite Hcs.
Qed.

Lemma cached_api_rejects_witness :
  let w := initial sample_config [ok 1 verified_source] in
  cached_api sample_config eip55_sample "bscscan" "contract" "getabi" "0x00" w
    = (Raise (HTTPException 400 "explorer not supported"), w)
  /\ cached_api sample_config eip55_sample "etherscan" "account" "getabi" "0x00" w
     = (Raise (HTTPException 400 "module not supported"), w)
  /\ cached_api sample_config eip55_sample "etherscan" "contract" "balance" "0x00" w
     = (Raise (HTTPException 400 "action not supported"), w)
  /\ cached_api sample_config eip55_sample "etherscan" "contract" "getabi" "0x00" w
     = (Raise (HTTPException 400 "invalid address"), w).
Proof.
  intros w. split; [|split; [|split]].
  - apply (cached_api_rejects sample_config eip55_sample "bscscan"). reflexivity.
  - apply (cached_api_rejects sample_config eip55_sample "etherscan" "account");
      [by eexists | discriminate].
  - apply (cached_api_rejects sample_config eip55_sample "etherscan" "contract" "balance");
      [by eexists | reflexivity | discriminate | discriminate].
  - apply (cached_api_rejects sample_config eip55_sample "etherscan" "contract" "getabi");
      [by eexists | reflexivity | by right | reflexivity].
Defined.



(** X3.  The address is put into checksummed form before the lookup, so
    every spelling of an address meets the same entry: when the disk cache
    holds a value under the checksummed address, [cached_api] returns it
    for any spelling, whatever the clock says, and sends nothing. *)
Theorem cached_api_any_spelling config cs e a address addr v w :
  lock_free w ->
  is_Some (assoc e config) ->
  a = "getsourcecode" \/ a = "getabi" ->
  cs address = Some addr ->
  cache w !! (e, "contract", a, addr) = Some v ->
  exists w',
    cached_api config cs e "contract" a address w = (Return v, w')
    /\ cache w' = cache w /\ weak w' = weak w /\ keys w' = keys w
    /\ sent w' = sent w /\ net w' = net w.
Proof.
  intros Hfree He Ha Hcs Hc.
  rewrite (cached_api_accepts _ _ _ _ _ _ _ He Ha Hcs).
  destruct (get_from_upstream_hit config e "contract" a addr w v (Hfree _) Hc)
    as (w' & Hrun & Ec & Ew & Ek & Es & En & _).
  exists w'. unfold except_ContractNotVerified. rewrite Hrun. done.
Qed.

Lemma cached_api_any_spelling_witness :
  let w := run sample_config eip55_sample
             [CachedApi "etherscan" "contract" "getsourcecode"
                "0x5aaeb6053f3e94c9b9a09f33669435e7ef1beaed"; Sleep 4000]
             (initial sample_config [ok 1 verified_source]) in
  exists w',
    cached_api sample_config eip55_sample "etherscan" "contract" "getsourcecode"
      "0x5aAeb6053F3E94C9b9A09f33669435E7Ef1BeAed" w = (Return verified_source, w')
    /\ cache w' = cache w /\ weak w' = weak w /\ keys w' = keys w
    /\ sent w' = sent w /\ net w' = net w.
Proof.
  intros w.
  apply (cached_api_any_spelling sample_config eip55_sample "etherscan" "getsourcecode"
           "0x5aAeb6053F3E94C9b9A09f33669435E7Ef1BeAed"
           "0x5aAeb6053F3E94C9b9A09f33669435E7Ef1BeAed").
  - apply (reachable_invariant sample_config eip55_sample).
    eexists _, _. reflexivity.
  - by eexists.
  - by left.
  - reflexivity.
  - reflexivity.
Defined.

(** ** Invalidation and the next lookup *)

(** X4.  After [invalidate] for an explorer and an address the disk cache
    has no entry for that pair under any module and action, every entry of
    another pair is still there, and a second [invalidate] for the same
    pair finds nothing: it answers [deleted: 0] and changes nothing. *)
Theorem invalidate_then_miss explorer address w :
  exists r w',
    invalidate explorer address w = (r, w')
    /\ (forall m a, cache w' !! (explorer, m, a, address) = None)
    /\ (forall k, key_explorer k <> explorer \/ key_address k <> address ->
                  cache w' !! k = cache w !! k)
    /\ invalidate explorer address w' = (Return (JObj [("deleted", JInt 0)]), w').
Proof.
  destruct (invalidate_loop explorer address (map fst (map_to_list (cache w))) 0%Z w)
    as (w' & Hrun & Hlook & Hw').
  { apply NoDup_fst_map_to_list. }
  { intros k Hk. apply list_elem_of_fmap in Hk as ([k' v] & -> & Hkv).
    apply elem_of_map_to_list in Hkv. eauto. }
  assert (Hgone : forall m a, cache w' !! (explorer, m, a, address) = None).
  { intros m a. rewrite Hlook. destruct (bool_decide _) eqn:Hb; [done|].
    apply bool_decide_eq_false in Hb.
    destruct (cache w !! (explorer, m, a, address)) as [v|] eqn:Hc; [|done].
    destruct Hb. split; [|done].
    apply list_elem_of_fmap. exists ((explorer, m, a, address), v).
    split; [done|]. by apply elem_of_map_to_list. }
  eexists _, w'. split.
  { unfold invalidate. unfold bind at 1, cache_iterkeys at 1.
    unfold bind at 1. rewrite Hrun. reflexivity. }
  split; [exact Hgone|]. split.
  - intros k Hk. rewrite Hlook. rewrite bool_decide_eq_false_2; [done|]. tauto.
  - destruct (invalidate_loop explorer address (map fst (map_to_list (cache w'))) 0%Z w')
      as (w2 & Hrun2 & Hlook2 & Hw2).
    { apply NoDup_fst_map_to_list. }
    { intros k Hk. apply list_elem_of_fmap in Hk as ([k' v] & -> & Hkv).
      apply elem_of_map_to_list in Hkv. eauto. }
    assert (Ec : cache w2 = cache w').
    { apply map_eq. intros k. rewrite Hlook2.
      destruct (bool_decide _) eqn:Hb; [|done].
      apply bool_decide_eq_true in Hb as (_ & He & Ha).
      destruct k as [[[e m] a] ad]. unfold key_explorer, key_address in *.
      simpl in He, Ha. subst. by rewrite Hgone. }
    assert (Ew : w2 = w').
    { rewrite Hw2, Ec. apply with_cache_id. }
    unfold invalidate. unfold bind at 1, cache_iterkeys at 1.
    unfold bind at 1. rewrite Hrun2, Ec, Ew. unfold ret. repeat f_equal. lia.
Qed.

(** X5.  A lookup that misses the disk cache and stores a response,
    followed by [invalidate] for its explorer and address and, with no
    time passed, by the same lookup: [invalidate] removes the entry and
    counts it; the lookup then gets the same response from the TTL cache,
    which [invalidate] does not touch, sends no request, and stores the
    response again. *)
Theorem invalidate_does_not_force_a_fetch config e m a addr w v w1 :
  let k := (e, m, a, addr) in
  lock_free w ->
  cache w !! k = None ->
  get_from_upstream config e m a addr w = (Return v, w1) ->
  exists n w2 w3,
    invalidate e addr w1 = (Return (JObj [("deleted", JInt n)]), w2)
    /\ (1 <= n)%Z
    /\ cache w2 !! k = None
    /\ get_from_upstream config e m a addr w2 = (Return v, w3)
    /\ sent w3 = sent w1
    /\ cache w3 !! k = Some v.
Proof.
  intros k Hfree Hmiss Hrun.
  (* the first lookup: a miss, a response from weak_cache, a store *)
  pose proof Hrun as Hrun'.
  rewrite get_from_upstream_run in Hrun' by apply Hfree. fold k in Hrun'.
  rewrite Hmiss in Hrun'.
  destruct (weak_cache _ _ _ _ _ _) as [[resp | ex] wa] eqn:Hw; [|discriminate].
  destruct (is_verified a resp) as [[|] | ex] eqn:Hver; [|discriminate..].
  injection Hrun' as <- <-.
  pose proof (ttl_cache_live _ _ _ _ _ Hw) as Hlive.
  destruct (get_from_upstream_effect _ _ _ _ _ _ _ _ Hfree Hrun) as (Hfree1 & _).
  set (w1 := release k (with_cache (insert k resp) wa)) in *.
  assert (Hc1 : cache w1 !! k = Some resp).
  { unfold w1, release. cbn [cache with_locks with_cache]. apply lookup_insert_eq. }
  (* invalidate *)
  destruct (invalidate_spec e addr w1) as (w2 & Hinv & Ec2 & Ew2 & Et2 & Hw2).
  assert (Hgone : cache w2 !! k = None).
  { rewrite Ec2. apply map_lookup_filter_None. right. intros x _ Hn. apply Hn. done. }
  assert (Hn : (1 <= Z.of_nat (size (filter
                  (fun kv : CacheKey * json =>
                     key_explorer kv.1 = e /\ key_address kv.1 = addr) (cache w1))))%Z).
  { assert (size (filter (fun kv : CacheKey * json =>
                     key_explorer kv.1 = e /\ key_address kv.1 = addr) (cache w1)) <> 0);
      [|lia].
    apply (map_size_ne_0_lookup_2 _ k). exists resp.
    apply map_lookup_filter_Some. done. }
  assert (Hfree2 : lock_free w2).
  { intros k'. rewrite Hw2. cbn [locks with_cache]. apply Hfree1. }
  (* the second lookup *)
  assert (Hlive2 : live k resp
            (with_stats (cache_hits w2) (S (cache_misses w2)) (acquire k w2))).
  { destruct Hlive as (en & Hf & Hv & Hlt). exists en.
    cbn [weak clock with_stats acquire with_locks]. rewrite Ew2, Et2.
    unfold w1, release. cbn [weak clock with_locks with_cache]. done. }
  destruct (ttl_cache_hit _ (fetch config e m a addr) _ _ Hlive2)
    as (wb & Hhit & _ & _ & _).
  assert (Hsent : sent wb = sent w2).
  { revert Hhit. unfold ttl_cache. unfold bind at 1.
    destruct (ttl_getitem k _) as [[[x|]|ex] wg] eqn:Hget;
      pose proof (sent_ttl_getitem _ _ _ _ Hget) as Hs.
    - intros [= _ <-]. exact Hs.
    - destruct Hlive2 as (en & Hf & Hv & Hlt). revert Hget. unfold ttl_getitem.
      rewrite Hf. apply Nat.ltb_lt in Hlt. rewrite Hlt. discriminate.
    - discriminate. }
  eexists _, w2, _. split; [exact Hinv|]. split; [exact Hn|]. split; [exact Hgone|].
  rewrite get_from_upstream_run by apply Hfree2. fold k. rewrite Hgone.
  unfold weak_cache. fold k. rewrite Hhit, Hver.
  split; [reflexivity|]. split.
  - unfold release. cbn [sent with_locks with_cache]. rewrite Hsent, Hw2. done.
  - unfold release. cbn [cache with_locks with_cache]. apply lookup_insert_eq.
Qed.

Lemma invalidate_does_not_force_a_fetch_witness :
  let k := ("etherscan", "contract", "getsourcecode",
            "0x5aAeb6053F3E94C9b9A09f33669435E7Ef1BeAed") in
  let lookup := get_from_upstream sample_config "etherscan" "contract" "getsourcecode"
                  "0x5aAeb6053F3E94C9b9A09f33669435E7Ef1BeAed" in
  let w := initial sample_config [ok 2 verified_source] in
  let w1 := (lookup w).2 in
  exists n w2 w3,
    invalidate "etherscan" "0x5aAeb6053F3E94C9b9A09f33669435E7Ef1BeAed" w1
      = (Return (JObj [("deleted", JInt n)]), w2)
    /\ (1 <= n)%Z
    /\ cache w2 !! k = None
    /\ lookup w2 = (Return verified_source, w3)
    /\ sent w3 = sent w1
    /\ cache w3 !! k = Some verified_source.
Proof.
  intros k lookup w w1.
  apply (invalidate_does_not_force_a_fetch sample_config "etherscan" "contract"
           "getsourcecode" "0x5aAeb6053F3E94C9b9A09f33669435E7Ef1BeAed" w).
  - intros k'. cbn [w initial locks]. by rewrite lookup_empty.
  - reflexivity.
  - vm_compute. reflexivity.
Defined.

(** ** One hour in the TTL cache *)

(** What a call of [weak_cache] that goes to the network leaves behind. *)
Lemma weak_cache_miss config e m a addr w r w1 :
  let k := (e, m, a, addr) in
  weak_cache config e m a addr w = (r, w1) ->
  (forall v, r = Return v -> sent w1 <> sent w) ->
  match r with
  | Return v =>
      exists en, ttl_find k (weak w1) = Some en /\ te_value en = v
                 /\ te_expires en = clock w1 + ttl
  | Raise _ => forall v, ~ live k v w1
  end.
Proof.
  intros k. unfold weak_cache, ttl_cache. fold k. unfold bind at 1.
  destruct (ttl_getitem k w) as [[[x|]|ex] wg] eqn:Hget.
  - intros [= <- <-] Hs. destruct (Hs x eq_refl). eapply sent_ttl_getitem; eauto.
  - destruct (ttl_getitem_miss _ _ _ Hget) as (Eclock & _ & _ & Hexp).
    unfold bind at 1.
    destruct (fetch _ _ _ _ _ wg) as [[y|ex] w2] eqn:Hf;
      destruct (fetch_frame _ _ _ _ _ _ _ _ Hf) as (Ew & Hle & _).
    + assert (Hnot : match ttl_find k (weak w2) with
                     | Some en => (clock w2 <? te_expires en)%nat
                     | None => false
                     end = false).
      { rewrite Ew. destruct (ttl_find k (weak wg)) as [en|] eqn:Hfind; [|done].
        apply Nat.ltb_ge. specialize (Hexp en eq_refl). lia. }
      unfold ttl_setdefault, bind, ttl_contains. rewrite Hnot.
      unfold ttl_setitem, ret. intros [= <- <-] _.
      eexists. cbn [weak clock with_weak]. rewrite ttl_find_moved by done. done.
    + intros [= <- <-] _ v (en & Hfind & _ & Hlt). rewrite Ew in Hfind.
      specialize (Hexp en Hfind). lia.
  - revert Hget. unfold ttl_getitem. destruct (ttl_find _ _); discriminate.
Qed.

(** X6.  A response that [weak_cache] fetched is good for 3600 seconds and
    no longer.  In a later state whose TTL cache still holds the entry of
    the key as the fetch stored it (the cache keeps at most 128 entries, so
    lookups of other keys can push it out before), a call less than 3600
    seconds after the fetch returns the same response without a request or
    a key taken; a call 3600 seconds or more after the fetch never returns
    a value without sending a new request. *)
Theorem weak_cache_fresh_for_an_hour config e m a addr w v w1 :
  let k := (e, m, a, addr) in
  weak_cache config e m a addr w = (Return v, w1) ->
  sent w1 <> sent w ->
  (forall w2,
     ttl_find k (weak w2) = ttl_find k (weak w1) ->
     clock w2 < clock w1 + 3600 ->
     exists w3,
       weak_cache config e m a addr w2 = (Return v, w3)
       /\ sent w3 = sent w2 /\ net w3 = net w2 /\ keys w3 = keys w2)
  /\ (forall w2 r w3,
        ttl_find k (weak w2) = ttl_find k (weak w1) ->
        clock w1 + 3600 <= clock w2 ->
        weak_cache config e m a addr w2 = (r, w3) ->
        (exists ex, r = Raise ex)
        \/ exists rq : request, sent w3 = (sent w2 ++ [rq])%list).
Proof.
  intros k Hrun Hsent.
  destruct (weak_cache_miss _ _ _ _ _ _ _ _ Hrun) as (en & Hfind & Hv & Hexp).
  { intros ? _. exact Hsent. }
  fold k in Hfind. split.
  - intros w2 Hsame Hd. unfold weak_cache, ttl_cache, bind, ttl_getitem. fold k.
    rewrite Hsame, Hfind, Hexp, Hv.
    rewrite (proj2 (Nat.ltb_lt _ _)) by (unfold ttl; lia).
    eexists. split; [reflexivity|]. done.
  - intros w2 r w3 Hsame Hd. unfold weak_cache, ttl_cache. fold k.
    unfold bind at 1, ttl_getitem at 1. rewrite Hsame, Hfind, Hexp.
    rewrite (proj2 (Nat.ltb_ge _ _)) by (unfold ttl; lia).
    unfold bind at 1.
    destruct (fetch _ _ _ _ _ _) as [[y|ex] w4] eqn:Hf.
    + destruct (fetch_frame _ _ _ _ _ _ _ _ Hf) as (_ & _ & Hs).
      destruct (Hs y eq_refl) as [rq Hrq]. cbn in Hrq.
      intros Hset. right. exists rq.
      by rewrite (sent_ttl_setdefault _ _ _ _ _ Hset).
    + intros [= <- <-]. left. eauto.
Qed.

Lemma weak_cache_fresh_for_an_hour_witness :
  let k := ("etherscan", "contract", "getsourcecode",
            "0xde709f2102306220921060314715629080e2fb77") in
  let call := weak_cache sample_config "etherscan" "contract" "getsourcecode"
                "0xde709f2102306220921060314715629080e2fb77" in
  let w1 := (call (initial sample_config [ok 2 unverified_source; ok 2 verified_source])).2 in
  (forall w2,
     ttl_find k (weak w2) = ttl_find k (weak w1) ->
     clock w2 < clock w1 + 3600 ->
     exists w3,
       call w2 = (Return unverified_source, w3)
       /\ sent w3 = sent w2 /\ net w3 = net w2 /\ keys w3 = keys w2)
  /\ (forall w2 r w3,
        ttl_find k (weak w2) = ttl_find k (weak w1) ->
        clock w1 + 3600 <= clock w2 ->
        call w2 = (r, w3) ->
        (exists ex, r = Raise ex)
        \/ exists rq : request, sent w3 = (sent w2 ++ [rq])%list).
Proof.
  intros k call w1.
  apply (weak_cache_fresh_for_an_hour sample_config "etherscan" "contract" "getsourcecode"
           "0xde709f2102306220921060314715629080e2fb77"
           (initial sample_config [ok 2 unverified_source; ok 2 verified_source])).
  - vm_compute. reflexivity.
  - vm_compute. discriminate.
Defined.

(** X7.  A call of [weak_cache] that raises (no such explorer, no key, no
    connection, an error status, a body that is not JSON) caches nothing:
    the TTL cache holds no live entry for the key afterwards and the disk
    cache is as before, so the failure is not remembered. *)
Theorem weak_cache_failure_not_cached config e m a addr w ex w' :
  weak_cache config e m a addr w = (Raise ex, w') ->
  (forall v, ~ live (e, m, a, addr) v w') /\ cache w' = cache w.
Proof.
  intros Hrun. split.
  - apply (weak_cache_miss _ _ _ _ _ _ _ _ Hrun). discriminate.
  - by destruct (quiet_weak_cache _ _ _ _ _ _ _ _ Hrun) as (-> & _).
Qed.

Lemma weak_cache_failure_not_cached_witness :
  let r := weak_cache sample_config "etherscan" "contract" "getsourcecode"
             "0xde709f2102306220921060314715629080e2fb77"
             (initial sample_config [Reply 1 {| status := 429; body := Some JNull |}]) in
  (forall v, ~ live ("etherscan", "contract", "getsourcecode",
                     "0xde709f2102306220921060314715629080e2fb77") v r.2)
  /\ cache r.2 = cache (initial sample_config
                          [Reply 1 {| status := 429; body := Some JNull |}]).
Proof.
  intros r.
  apply (weak_cache_failure_not_cached sample_config "etherscan" "contract"
           "getsourcecode" "0xde709f2102306220921060314715629080e2fb77" _ (HTTPError 429)).
  reflexivity.
Defined.

(** ** The resolver and the network *)













(** The explorer knows the contract, and still the chain is asked. *)
Example constructor_args_on_chain_example :
  let w := run sample_config eip55_sample
             [CachedApi "etherscan" "contract" "getsourcecode"
                "0x5aaeb6053f3e94c9b9a09f33669435e7ef1beaed"]
             (initial sample_config
                [ok 1 verified_source; creation_tx_reply (JStr "aabbccddeeff")]) in
  (constructor_args sample_config eip55_sample "etherscan"
     "0x5aaeb6053f3e94c9b9a09f33669435e7ef1beaed" true (Some "0x01") (Some "aabbcc") w).1
  = Return (JObj [("address", JStr "0x5aAeb6053F3E94C9b9A09f33669435E7Ef1BeAed");
                  ("constructor_args", JStr "ddeeff")]).
Proof. vm_compute. reflexivity. Qed.

Lemma sent_get_creation_tx address url w r w' :
  get_creation_tx address url w = (r, w') ->
  sent w' = (sent w ++ [POST url (rpc_payload "ots_getContractCreator" (JStr address))])%list.
Proof.
  unfold get_creation_tx. unfold bind at 1.
  destruct (send _ w) as [[res|ex] w1] eqn:Hs; pose proof (sent_send _ _ _ _ Hs) as E.
  - destruct (negb _); [by intros [= <- <-]|].
    unfold bind, response_json, lift, raise, ret.
    destruct (body res) as [j|]; [|by intros [= <- <-]].
    destruct (py_getitem j "result") as [x|]; [|by intros [= <- <-]].
    by intros [= <- <-].
  - by intros [= <- <-].
Qed.

Lemma sent_get_creation_code tx url w r w' :
  get_creation_code tx url w = (r, w') ->
  sent w' = (sent w ++ [POST url (rpc_payload "eth_getTransactionByHash" tx)])%list.
Proof.
  unfold get_creation_code. unfold bind at 1.
  destruct (send _ w) as [[res|ex] w1] eqn:Hs; pose proof (sent_send _ _ _ _ Hs) as E.
  - destruct (negb _); [by intros [= <- <-]|].
    unfold bind, response_json, lift, raise, ret.
    destruct (body res) as [j|]; [|by intros [= <- <-]].
    destruct (py_getitem j "result") as [x|]; [|by intros [= <- <-]].
    by intros [= <- <-].
  - by intros [= <- <-].
Qed.

(** X9.  [do_on_chain_lookup] checks its arguments before it goes to the
    network: without an rpc url it raises 404, with one but without a
    bytecode 400, and in both cases nothing is sent and nothing changes.
    With both, a given transaction hash costs exactly one request, the
    lookup of the transaction; without a hash the lookup of the creator
    comes first and the lookup of the transaction, if it comes at all,
    second. *)
Theorem on_chain_lookup_checks_first explorer rpc_url address tx bytecode w :
  (opt_truthy rpc_url = false ->
   do_on_chain_lookup explorer rpc_url address tx bytecode w
     = (Raise (HTTPException 404 ("no rpc configured for explorer " +:+ explorer)), w))
  /\ (opt_truthy rpc_url = true -> opt_truthy bytecode = false ->
      do_on_chain_lookup explorer rpc_url address tx bytecode w
        = (Raise (HTTPException 400 ("no bytecode provided for address " +:+ address)), w))
  /\ (forall url r w',
        rpc_url = Some url -> opt_truthy rpc_url = true -> opt_truthy bytecode = true ->
        do_on_chain_lookup explorer rpc_url address tx bytecode w = (r, w') ->
        let creator := POST url (rpc_payload "ots_getContractCreator" (JStr address)) in
        if truthy tx
        then sent w' = (sent w ++ [POST url (rpc_payload "eth_getTransactionByHash" tx)])%list
        else sent w' = (sent w ++ [creator])%list
             \/ exists h, sent w' = (sent w ++ [creator;
                            POST url (rpc_payload "eth_getTransactionByHash" h)])%list).
Proof.
  unfold do_on_chain_lookup. split; [|split].
  - by intros ->.
  - by intros -> ->.
  - intros url r w' -> Hu Hb. rewrite Hu, Hb. cbn [negb default from_option].
    unfold raise, id.
    rewrite andb_true_r. intros Hrun. cbv zeta.
    set (creator := POST url (rpc_payload "ots_getContractCreator" (JStr address))).
    revert Hrun.
    destruct (truthy tx) eqn:Ht; cbn [negb].
    + rewrite (bind_Return (ret tx) _ w tx w eq_refl). rewrite Ht. cbn [negb].
      unfold bind at 1.
      destruct (get_creation_code tx url w) as [[cc|ex] w1] eqn:Hc;
        pose proof (sent_get_creation_code _ _ _ _ _ Hc) as E.
      * destruct (negb (truthy cc)); [by intros [= <- <-]|].
        unfold bind, lift, ret. destruct (py_len cc); [|by intros [= <- <-]].
        destruct (0 <? _)%Z; [|by intros [= <- <-]].
        by intros [= <- <-].
      * by intros [= <- <-].
    + unfold bind at 1.
      destruct (get_creation_tx address url w) as [[h|ex] w1] eqn:Hh;
        pose proof (sent_get_creation_tx _ _ _ _ _ Hh) as E1.
      * destruct (negb (truthy h)); [intros [= <- <-]; by left|].
        unfold bind at 1.
        destruct (get_creation_code h url w1) as [[cc|ex] w2] eqn:Hc;
          pose proof (sent_get_creation_code _ _ _ _ _ Hc) as E2;
          rewrite E1, <- app_assoc in E2; cbn [app] in E2.
        -- intros Hrun. right. exists h. fold creator in E2. rewrite <- E2.
           revert Hrun. destruct (negb (truthy cc)); [by intros [= <- <-]|].
           unfold bind, lift, ret. destruct (py_len cc); [|by intros [= <- <-]].
           destruct (0 <? _)%Z; by intros [= <- <-].
        -- intros [= <- <-]. right. exists h. exact E2.
      * intros [= <- <-]. by left.
Qed.

Lemma on_chain_lookup_checks_first_witness :
  let w := initial sample_config [creation_tx_reply (JStr "aabbccddeeff")] in
  do_on_chain_lookup "etherscan" None "0xde70" JNull (Some "aabbcc") w
    = (Raise (HTTPException 404 ("no rpc configured for explorer " +:+ "etherscan")), w)
  /\ do_on_chain_lookup "etherscan" (Some "http://localhost:8545") "0xde70" JNull None w
     = (Raise (HTTPException 400 ("no bytecode provided for address " +:+ "0xde70")), w)
  /\ sent (do_on_chain_lookup "etherscan" (Some "http://localhost:8545") "0xde70"
             (JStr "0x01") (Some "aabbcc") w).2
     = (sent w ++ [POST "http://localhost:8545"
                     (rpc_payload "eth_getTransactionByHash" (JStr "0x01"))])%list.
Proof.
  intros w. split; [|split].
  - apply (on_chain_lookup_checks_first "etherscan" None "0xde70" JNull (Some "aabbcc") w).
    reflexivity.
  - apply (on_chain_lookup_checks_first "etherscan" (Some "http://localhost:8545")
             "0xde70" JNull None w); reflexivity.
  - exact (proj2 (proj2 (on_chain_lookup_checks_first "etherscan"
             (Some "http://localhost:8545") "0xde70" (JStr "0x01") (Some "aabbcc") w))
             "http://localhost:8545"
             (do_on_chain_lookup "etherscan" (Some "http://localhost:8545") "0xde70"
                (JStr "0x01") (Some "aabbcc") w).1
             (do_on_chain_lookup "etherscan" (Some "http://localhost:8545") "0xde70"
                (JStr "0x01") (Some "aabbcc") w).2
             eq_refl eq_refl eq_refl (surjective_pairing _)).
Defined.

Lemma length_str_append a b :
  String.length (a +:+ b) = String.length a + String.length b.
Proof.
  induction a as [|c a IH]; [done|].
  change (S (String.length (a +:+ b)) = S (String.length a + String.length b)).
  by rewrite IH.
Qed.

Lemma str_drop_append a b : str_drop (String.length a) (a +:+ b) = b.
Proof.
  induction a as [|c a IH]; [by destruct b|].
  change (str_drop (String.length a) (a +:+ b) = b). exact IH.
Qed.

(** What the resolver returns for a creation code that is a string. *)
Lemma do_on_chain_lookup_string explorer url address tx h bytecode cc w w1 w2 :
  url <> "" -> bytecode <> "" -> cc <> "" ->
  (truthy tx = true /\ h = tx /\ w1 = w
   \/ truthy tx = false /\ get_creation_tx address url w = (Return h, w1)) ->
  truthy h = true ->
  get_creation_code h url w1 = (Return (JStr cc), w2) ->
  do_on_chain_lookup explorer (Some url) address tx (Some bytecode) w
  = (Return (JStr
       (if (0 <? Z.of_nat (String.length cc) - Z.of_nat (String.length bytecode))%Z
        then str_drop (String.length cc
                       - Z.to_nat (Z.of_nat (String.length cc)
                                   - Z.of_nat (String.length bytecode))) cc
        else "")), w2).
Proof.
  intros Hurl Hbc Hcc Htx Hh Hcode.
  unfold do_on_chain_lookup.
  rewrite (opt_truthy_Some url Hurl), (opt_truthy_Some bytecode Hbc).
  cbn [negb default from_option]. unfold id.
  assert (Hres : (if negb (truthy tx) && true
                  then get_creation_tx address url else ret tx) w = (Return h, w1)).
  { destruct Htx as [(Ht & -> & ->) | (Ht & Hget)]; rewrite Ht; simpl; done. }
  rewrite (bind_Return _ _ _ _ _ Hres), Hh. cbn [negb].
  rewrite (bind_Return _ _ _ _ _ Hcode).
  rewrite (proj2 (truthy_JStr cc) Hcc). cbn [negb].
  unfold bind, lift. cbn [py_len].
  destruct (0 <? _)%Z; reflexivity.
Qed.

(** X10.  The resolver undoes a deployment: when the creation code that
    the node supplies is the reference bytecode followed by some
    arguments, the resolver returns exactly these arguments, the empty
    string when there are none. *)
Theorem on_chain_lookup_recovers_arguments
    explorer url address tx h bytecode args w w1 w2 :
  url <> "" -> bytecode <> "" ->
  (truthy tx = true /\ h = tx /\ w1 = w
   \/ truthy tx = false /\ get_creation_tx address url w = (Return h, w1)) ->
  truthy h = true ->
  get_creation_code h url w1 = (Return (JStr (bytecode +:+ args)), w2) ->
  do_on_chain_lookup explorer (Some url) address tx (Some bytecode) w
  = (Return (JStr args), w2).
Proof.
  intros Hurl Hbc Htx Hh Hcode.
  rewrite (do_on_chain_lookup_string explorer url address tx h bytecode
             (bytecode +:+ args) w w1 w2); try done.
  2:{ destruct bytecode; [done | discriminate]. }
  rewrite length_str_append.
  destruct (Z.ltb_spec 0 (Z.of_nat (String.length bytecode + String.length args)
                          - Z.of_nat (String.length bytecode))) as [Hlt | Hge].
  - replace (String.length bytecode + String.length args
             - Z.to_nat (Z.of_nat (String.length bytecode + String.length args)
                         - Z.of_nat (String.length bytecode)))
      with (String.length bytecode) by lia.
    by rewrite str_drop_append.
  - destruct args; [done | cbn [String.length] in Hge; lia].
Qed.

Lemma on_chain_lookup_recovers_arguments_witness :
  do_on_chain_lookup "etherscan" (Some "http://localhost:8545") "0xde70"
    (JStr "0x01") (Some "6080604052")
    (initial sample_config [creation_tx_reply (JStr ("6080604052" +:+ "000000000000002a"))])
  = (Return (JStr "000000000000002a"),
     (get_creation_code (JStr "0x01") "http://localhost:8545"
        (initial sample_config
           [creation_tx_reply (JStr ("6080604052" +:+ "000000000000002a"))])).2).
Proof.
  apply (on_chain_lookup_recovers_arguments "etherscan" "http://localhost:8545" "0xde70"
           (JStr "0x01") (JStr "0x01") "6080604052" "000000000000002a"
           (initial sample_config
              [creation_tx_reply (JStr ("6080604052" +:+ "000000000000002a"))])
           (initial sample_config
              [creation_tx_reply (JStr ("6080604052" +:+ "000000000000002a"))])).
  - discriminate.
  - discriminate.
  - left. repeat split; reflexivity.
  - reflexivity.
  - vm_compute. reflexivity.
Defined.

(** X11.  For the resolver a node that answers with a status other than
    200 has not found what was asked for: whatever the status and the
    body, the one request is made, the body is not read, and the call
    raises 404, for the creation transaction when no hash was given and
    for the creation code when one was. *)
Theorem on_chain_lookup_error_status_is_not_found
    explorer url address tx bytecode w d s b rest :
  url <> "" -> bytecode <> "" ->
  net w = Reply d {| status := s; body := b |} :: rest ->
  s <> 200%Z ->
  do_on_chain_lookup explorer (Some url) address tx (Some bytecode) w
  = if truthy tx
    then (Raise (HTTPException 404 ("creation code not found for tx " +:+ py_str tx)),
          with_net d rest (POST url (rpc_payload "eth_getTransactionByHash" tx)) w)
    else (Raise (HTTPException 404 ("creation tx not found for address " +:+ address)),
          with_net d rest
            (POST url (rpc_payload "ots_getContractCreator" (JStr address))) w).
Proof.
  intros Hurl Hbc Hnet Hs.
  assert (Hne : negb (s =? 200)%Z = true) by (apply negb_true_iff, Z.eqb_neq; done).
  unfold do_on_chain_lookup.
  rewrite (opt_truthy_Some url Hurl), (opt_truthy_Some bytecode Hbc).
  cbn [negb default from_option]. unfold id. rewrite andb_true_r.
  destruct (truthy tx) eqn:Ht; cbn [negb].
  - rewrite (bind_Return (ret tx) _ w tx w eq_refl). rewrite Ht. cbn [negb].
    erewrite bind_Return.
    2:{ unfold get_creation_code. erewrite bind_Return.
        2:{ unfold send. rewrite Hnet. reflexivity. }
        cbn [status]. rewrite Hne. reflexivity. }
    reflexivity.
  - erewrite bind_Return.
    2:{ unfold get_creation_tx. erewrite bind_Return.
        2:{ unfold send. rewrite Hnet. reflexivity. }
        cbn [status]. rewrite Hne. reflexivity. }
    reflexivity.
Qed.

Lemma on_chain_lookup_error_status_is_not_found_witness :
  let w := initial sample_config
             [Reply 1 {| status := 500;
                         body := Some (JObj [("result", JObj [("input", JStr "aabbcc")])]) |}] in
  do_on_chain_lookup "etherscan" (Some "http://localhost:8545") "0xde70" (JStr "0x01")
    (Some "aabbcc") w
  = if truthy (JStr "0x01")
    then (Raise (HTTPException 404 ("creation code not found for tx " +:+ py_str (JStr "0x01"))),
          with_net 1 [] (POST "http://localhost:8545"
                           (rpc_payload "eth_getTransactionByHash" (JStr "0x01"))) w)
    else (Raise (HTTPException 404 ("creation tx not found for address " +:+ "0xde70")),
          with_net 1 []
            (POST "http://localhost:8545"
               (rpc_payload "ots_getContractCreator" (JStr "0xde70"))) w).
Proof.
  intros w.
  apply (on_chain_lookup_error_status_is_not_found "etherscan" "http://localhost:8545"
           "0xde70" (JStr "0x01") "aabbcc" w 1 500
           (Some (JObj [("result", JObj [("input", JStr "aabbcc")])])) []).
  - discriminate.
  - discriminate.
  - reflexivity.
  - discriminate.
Defined.

(** ** The rpc url of an explorer *)

Lemma chains_have_rpc_urls (l : list (string * explorer_config)) :
  forall (mC : gmap string Z) (mR : gmap Z (option string)),
  (forall e c, mC !! e = Some c -> is_Some (mR !! c)) ->
  forall e c,
    foldl (fun m ec => match cfg_rpc ec.2 with
                       | None => m
                       | Some r => <[ec.1 := chain_id r]> m
                       end) mC l !! e = Some c ->
    is_Some (foldl (fun m ec => match cfg_rpc ec.2 with
                                | None => m
                                | Some r => <[chain_id r := rpc_url r]> m
                                end) mR l !! c).
Proof.
  induction l as [|[name cfg] l IH]; intros mC mR Hinv e c; cbn [foldl].
  - apply Hinv.
  - apply IH. cbn [fst snd]. destruct (cfg_rpc cfg) as [r|]; [|exact Hinv].
    intros e' c'. destruct (decide (name = e')) as [<- | Hne].
    + rewrite lookup_insert_eq. intros [= <-]. rewrite lookup_insert_eq. eauto.
    + rewrite lookup_insert_ne by done. intros Hc.
      destruct (decide (chain_id r = c')) as [<- | Hne'].
      * rewrite lookup_insert_eq. eauto.
      * rewrite lookup_insert_ne by done. eauto.
Qed.

Lemma rpc_urls_are_configured (l : list (string * explorer_config)) :
  forall (mR : gmap Z (option string)),
  (forall ec r, ec ∈ l -> cfg_rpc ec.2 = Some r -> is_Some (rpc_url r)) ->
  (forall c o, mR !! c = Some o -> is_Some o) ->
  forall c o,
    foldl (fun m ec => match cfg_rpc ec.2 with
                       | None => m
                       | Some r => <[chain_id r := rpc_url r]> m
                       end) mR l !! c = Some o ->
    is_Some o.
Proof.
  induction l as [|[name cfg] l IH]; intros mR Hl Hinv c o; cbn [foldl].
  - apply Hinv.
  - apply IH.
    + intros ec r Hin. apply Hl. by apply list_elem_of_further.
    + cbn [fst snd]. destruct (cfg_rpc cfg) as [r|] eqn:Hr; [|exact Hinv].
      intros c' o'. destruct (decide (chain_id r = c')) as [<- | Hne].
      * rewrite lookup_insert_eq. intros [= <-].
        apply (Hl (name, cfg) r); [apply list_elem_of_here | done].
      * rewrite lookup_insert_ne by done. apply Hinv.
Qed.

(** X12.  The two tables that the module builds from the configuration
    agree: the chain of every explorer in [CHAINS] has an entry in
    [RPC_URLS], so the test [chain_id not in RPC_URLS] of
    [constructor_args] never succeeds; and when every rpc table of the
    configuration has a url, that entry is a url, so the test for [None]
    never succeeds either. *)
Theorem rpc_url_is_always_known config e c :
  CHAINS config !! e = Some c ->
  is_Some (RPC_URLS config !! c)
  /\ ((forall ec r, ec ∈ config -> cfg_rpc ec.2 = Some r -> is_Some (rpc_url r)) ->
      exists url, RPC_URLS config !! c = Some (Some url)).
Proof.
  intros Hc.
  assert (Hsome : is_Some (RPC_URLS config !! c)).
  { revert Hc. unfold CHAINS, RPC_URLS. apply chains_have_rpc_urls.
    intros e' c'. by rewrite lookup_empty. }
  split; [exact Hsome|]. intros Hcfg. destruct Hsome as [o Ho].
  destruct (rpc_urls_are_configured config ∅ Hcfg) with (c := c) (o := o) as [url ->].
  - intros c' o'. by rewrite lookup_empty.
  - exact Ho.
  - eauto.
Qed.

Lemma rpc_url_is_always_known_witness :
  is_Some (RPC_URLS sample_config !! 1%Z)
  /\ ((forall ec r, ec ∈ sample_config -> cfg_rpc ec.2 = Some r -> is_Some (rpc_url r)) ->
      exists url, RPC_URLS sample_config !! 1%Z = Some (Some url)).
Proof.
  apply (rpc_url_is_always_known sample_config "etherscan" 1%Z). reflexivity.
Defined.

(** ** The constructor arguments of the explorer *)

(** X13.  When the lookup of the source code, with its fallback, returns a
    response whose message is OK and whose first result entry has
    non-empty [ConstructorArguments], [constructor_args] answers with the
    checksummed address and these arguments, and the chain is not asked:
    the state is the one the lookup left. *)
Theorem constructor_args_from_explorer
    config cs e address addr tx bc w w2 fields first rest args :
  cs address = Some addr ->
  (forall c, CHAINS config !! e = Some c ->
             exists url, RPC_URLS config !! c = Some (Some url)) ->
  except_ContractNotVerified
    (get_from_upstream config e "contract" "getsourcecode" addr)
    (weak_cache config e "contract" "getsourcecode" addr) w
    = (Return (JObj fields), w2) ->
  dict_get "message" fields = Some (JStr "OK") ->
  dict_get "result" fields = Some (JArr (JObj first :: rest)) ->
  dict_get "ConstructorArguments" first = Some args ->
  truthy args = true ->
  constructor_args config cs e address false tx bc w
  = (Return (JObj [("address", JStr addr); ("constructor_args", args)]), w2).
Proof.
  intros Hcs Hrpc Hlook Hmsg Hres Hargs Ht.
  unfold constructor_args. rewrite Hcs.
  assert (Hexp : explorer_args (JObj fields) w2 = (Return (Some args), w2)).
  { unfold explorer_args, bind, lift, ret. cbn [py_getitem].
    rewrite Hmsg. cbn [py_eq_str String.eqb Ascii.eqb Bool.eqb py_in].
    rewrite bool_decide_eq_true_2 by (rewrite Hres; eauto).
    rewrite Hres. cbn [py_len length Z.of_nat].
    destruct (Z.ltb_spec 0 (Z.of_nat (S (length rest)))) as [_|]; [|lia].
    cbn [py_getitem0 py_getitem]. by rewrite Hargs. }
  destruct (CHAINS config !! e) as [c|] eqn:Hc.
  - destruct (Hrpc c eq_refl) as [url ->].
    rewrite (bind_Return (ret (Some url)) _ w (Some url) w eq_refl).
    rewrite (bind_Return _ _ _ _ _ Hlook), (bind_Return _ _ _ _ _ Hexp).
    rewrite Ht. reflexivity.
  - rewrite (bind_Return (ret None) _ w None w eq_refl).
    rewrite (bind_Return _ _ _ _ _ Hlook), (bind_Return _ _ _ _ _ Hexp).
    rewrite Ht. reflexivity.
Qed.

Lemma constructor_args_from_explorer_witness :
  let w := initial sample_config [ok 1 verified_source] in
  constructor_args sample_config eip55_sample "ftmscan"
    "0x5aaeb6053f3e94c9b9a09f33669435e7ef1beaed" false None None w
  = (Return (JObj [("address", JStr "0x5aAeb6053F3E94C9b9A09f33669435E7Ef1BeAed");
                   ("constructor_args", JStr "00ab")]),
     (cached_api sample_config eip55_sample "ftmscan" "contract" "getsourcecode"
        "0x5aaeb6053f3e94c9b9a09f33669435e7ef1beaed" w).2).
Proof.
  intros w.
  apply (constructor_args_from_explorer sample_config eip55_sample "ftmscan"
           "0x5aaeb6053f3e94c9b9a09f33669435e7ef1beaed"
           "0x5aAeb6053F3E94C9b9A09f33669435E7Ef1BeAed" None None w _
           [("status", JStr "1"); ("message", JStr "OK");
            ("result", JArr [JObj [("SourceCode", JStr "contract C {}");
                                   ("ConstructorArguments", JStr "00ab")]])]
           [("SourceCode", JStr "contract C {}"); ("ConstructorArguments", JStr "00ab")]
           [] (JStr "00ab")).
  - reflexivity.
  - intros c Hc. vm_compute in Hc. discriminate.
  - vm_compute. reflexivity.
  - reflexivity.
  - reflexivity.
  - reflexivity.
  - reflexivity.
Defined.
